(** * nanoservices-utils: contract envelopes, dispatch, framing and the guest bridge

    A shallow embedding of the contract-messaging layer of the
    [nanoservices-utils] crate: the enum produced by [create_contract_handler!]
    (networking/contract.rs), the dispatcher produced by
    [register_contract_routes!] (networking/tcp/routing.rs), the streaming
    [BincodeCodec] (serialization/codec.rs), the two self-contained wrappers
    (serialization/wrappers/bincode.rs and bitcode.rs), the tokio event bus
    (tokio_pub_sub.rs) and the host side of the wasm guest bridge
    (tests/wasm/client/src/main.rs with networking/wasm/routing.rs).

    Bytes are integers in [0, 256) and byte buffers are [list Z]. *)

From Stdlib Require Import ZArith Lia Ascii.
From stdpp Require Import base list gmap strings.
Import ListNotations.
Open Scope Z_scope.

(** ** Shared vocabulary: Rust's [Result] and the crate's error type *)

Inductive result (A E : Type) : Type :=
| Ok (a : A)
| Err (e : E).
Arguments Ok {A E} a.
Arguments Err {A E} e.

(** errors.rs: [NanoServiceErrorStatus]. *)
Inductive NanoServiceErrorStatus : Type :=
| NotFound
| Forbidden
| Unknown
| BadRequest
| Conflict
| Unauthorized
| ContractNotSupported.

(** errors.rs: [NanoServiceError { message, status }]. *)
Record NanoServiceError : Type := mkNanoServiceError {
  message : string;
  status : NanoServiceErrorStatus
}.

(** errors.rs: [NanoServiceError::new]. *)
Definition NanoServiceError_new (m : string) (s : NanoServiceErrorStatus)
  : NanoServiceError := mkNanoServiceError m s.

(** errors.rs: [ResponseError::status_code] (feature [actix]), as the
    numeric HTTP status. *)
Definition status_code (s : NanoServiceErrorStatus) : Z :=
  match s with
  | NotFound => 404
  | Forbidden => 403
  | Unknown => 500
  | BadRequest => 400
  | Conflict => 409
  | Unauthorized => 401
  | ContractNotSupported => 501
  end.

(** Rust's [str::to_lowercase], on the ASCII identifiers that name
    contract types. *)
Definition ascii_to_lowercase (c : ascii) : ascii :=
  let n := nat_of_ascii c in
  if (65 <=? n)%nat && (n <=? 90)%nat then ascii_of_nat (n + 32) else c.

Fixpoint to_lowercase (s : string) : string :=
  match s with
  | EmptyString => EmptyString
  | String c s' => String (ascii_to_lowercase c) (to_lowercase s')
  end.

(** ** The enum generated by [create_contract_handler!] *)
Module Contract.
Section Handler.

(** The contract payloads: one carrier type for the payloads of all
    variants; [variants] are the type names given to the macro, in order. *)
Variable P : Type.
Variable variants : list string.
(** [bincode::serialize] / [bincode::deserialize] at the variant's type. *)
Variable ser : string -> P -> option (list Z).
Variable de : string -> list Z -> option P.
(** [bincode::serialize] at [NanoServiceError]. *)
Variable ser_error : NanoServiceError -> option (list Z).

(** [pub enum $enum_name { $( $variant($variant), )+ NanoServiceError(NanoServiceError) }] *)
Inductive Envelope : Type :=
| ContractVariant (name : string) (inner : P)
| ErrorVariant (e : NanoServiceError).

(** A value of the generated enum: its contract variants are declared ones. *)
Definition representable (e : Envelope) : Prop :=
  match e with
  | ContractVariant n _ => n ∈ variants
  | ErrorVariant _ => True
  end.

(** [format!("{}_contract", stringify!($variant).to_lowercase())] *)
Definition contract_tag (v : string) : string :=
  to_lowercase v +:+ "_contract".

(** [$variant(self)]: the narrowing accessor of variant [v]. *)
Definition variant_accessor (v : string) (e : Envelope)
  : result P NanoServiceError :=
  match e with
  | ContractVariant n inner =>
      if String.eqb n v then Ok inner
      else Err (NanoServiceError_new ("Expected variant: " +:+ v) BadRequest)
  | ErrorVariant inner => Err inner
  end.

(** [NanoServiceError(self)]: the accessor of the error variant. *)
Definition NanoServiceError_accessor (e : Envelope)
  : result NanoServiceError NanoServiceError :=
  match e with
  | ErrorVariant inner => Ok inner
  | _ => Err (NanoServiceError_new "Expected variant: NanoServiceError" BadRequest)
  end.

(** [to_string_ref] *)
Definition to_string_ref (e : Envelope) : string :=
  match e with
  | ContractVariant n _ => contract_tag n
  | ErrorVariant _ => "nanoService_error"
  end.

(** [from_contract_bytes]: one [if] per declared variant, in order. *)
Fixpoint from_contract_bytes_go (vs : list string) (bytes : list Z)
    (string_ref : string) : result Envelope NanoServiceError :=
  match vs with
  | [] => Err (NanoServiceError_new "Failed to deserialize contract" BadRequest)
  | v :: vs' =>
      if String.eqb string_ref (contract_tag v) then
        match de v bytes with
        | Some contract => Ok (ContractVariant v contract)
        | None => from_contract_bytes_go vs' bytes string_ref
        end
      else from_contract_bytes_go vs' bytes string_ref
  end.

Definition from_contract_bytes (bytes : list Z) (string_ref : string)
  : result Envelope NanoServiceError :=
  from_contract_bytes_go variants bytes string_ref.

(** [to_contract_bytes] *)
Definition to_contract_bytes (e : Envelope) : result (list Z) NanoServiceError :=
  match e with
  | ContractVariant n contract =>
      match ser n contract with
      | Some bytes => Ok bytes
      | None => Err (NanoServiceError_new "Failed to serialize contract" BadRequest)
      end
  | ErrorVariant error =>
      match ser_error error with
      | Some bytes => Ok bytes
      | None => Err (NanoServiceError_new "Failed to serialize contract" BadRequest)
      end
  end.

(** [internal_index]: [index += 1] per declared variant, returning it at
    the first variant that matches, else [0]. *)
Fixpoint internal_index_go (vs : list string) (index : Z) (e : Envelope) : Z :=
  match vs with
  | [] => 0
  | v :: vs' =>
      let index := index + 1 in
      match e with
      | ContractVariant n _ => if String.eqb n v then index else internal_index_go vs' index e
      | ErrorVariant _ => internal_index_go vs' index e
      end
  end.

Definition internal_index (e : Envelope) : Z := internal_index_go variants 0 e.

End Handler.

Arguments ContractVariant {P} name inner.
Arguments ErrorVariant {P} e.
Arguments representable {P} variants e.
Arguments variant_accessor {P} v e.
Arguments NanoServiceError_accessor {P} e.
Arguments to_string_ref {P} e.
Arguments from_contract_bytes_go {P} de vs bytes string_ref.
Arguments from_contract_bytes {P} variants de bytes string_ref.
Arguments to_contract_bytes {P} ser ser_error e.
Arguments internal_index_go {P} vs index e.
Arguments internal_index {P} variants e.

(** ** The dispatcher generated by [register_contract_routes!] *)
Section Routing.
Variable P : Type.
(** [$( $contract => $handler_fn ),*]: the bound contracts and their
    handlers, in the order of the match arms. A handler's error reaches the
    caller through [?], which is the identity on [NanoServiceError]. *)
Variable routes : list (string * (P -> result P NanoServiceError)).

Definition unknown_contract_error : NanoServiceError :=
  NanoServiceError_new "Received unknown contract type." ContractNotSupported.

(** The arms of [match msg { $( $handler_enum::$contract(inner) => ... )* _ => ... }]. *)
Fixpoint route_arms (rs : list (string * (P -> result P NanoServiceError)))
    (msg : Envelope P) : result (Envelope P) NanoServiceError :=
  match rs with
  | [] => Err unknown_contract_error
  | (c, handler_fn) :: rs' =>
      match msg with
      | ContractVariant n inner =>
          if String.eqb n c then
            match handler_fn inner with
            | Ok executed_contract => Ok (ContractVariant c executed_contract)
            | Err e => Err e
            end
          else route_arms rs' msg
      | ErrorVariant _ => route_arms rs' msg
      end
  end.

(** [pub async fn $fn_name(received_msg) -> Result<$handler_enum, NanoServiceError>] *)
Definition route (received_msg : Envelope P) : result (Envelope P) NanoServiceError :=
  route_arms routes received_msg.

(** The handler bound to contract [n]: the first arm naming it. *)
Fixpoint bound_handler (n : string) (rs : list (string * (P -> result P NanoServiceError)))
  : option (P -> result P NanoServiceError) :=
  match rs with
  | [] => None
  | (c, h) :: rs' => if String.eqb n c then Some h else bound_handler n rs'
  end.

End Routing.

Arguments route_arms {P} rs msg.
Arguments route {P} routes received_msg.
Arguments bound_handler {P} n rs.

(** The handler of the crate's tests: [ContractOne], [ContractTwo] and
    [ContractThree] are unit structs, which bincode encodes as no bytes. *)
Definition test_variants : list string := ["ContractOne"; "ContractTwo"; "ContractThree"].
Definition unit_ser (_ : string) (_ : unit) : option (list Z) := Some [].
Definition unit_de (_ : string) (_ : list Z) : option unit := Some tt.

End Contract.

(** ** Rust's [Option::unwrap] and [std::io] *)

(** The outcome of a call that may panic. *)
Inductive outcome (A : Type) : Type :=
| Panicked (msg : string)
| Returned (a : A).
Arguments Panicked {A} msg.
Arguments Returned {A} a.

Definition unwrap_none_msg : string := "called `Option::unwrap()` on a `None` value".

Inductive IoErrorKind : Type :=
| IoUnexpectedEof
| IoOther.

Record IoError : Type := mkIoError {
  kind : IoErrorKind;
  io_message : string
}.

(** [read_exact] on a byte stream: the first [n] bytes, or an
    [UnexpectedEof] error once the stream ends early (having drained it). *)
Definition read_exact (n : nat) (stream : list Z) : result (list Z) IoError * list Z :=
  if (n <=? length stream)%nat then (Ok (firstn n stream), skipn n stream)
  else (Err (mkIoError IoUnexpectedEof "failed to fill whole buffer"), []).

(** tokio's [AsyncReadExt::read_exact]: the same, but a short read is the
    [UnexpectedEof] error ["early eof"]. *)
Definition async_read_exact (n : nat) (stream : list Z) : result (list Z) IoError * list Z :=
  if (n <=? length stream)%nat then (Ok (firstn n stream), skipn n stream)
  else (Err (mkIoError IoUnexpectedEof "early eof"), []).

(** ** bincode 1.x with its default options: fixed-width little-endian
    integers, [u64] length prefixes, trailing bytes allowed *)
Module Bincode.

Inductive ErrorKind : Type :=
| Io (e : IoError)
| InvalidUtf8Encoding.

Definition error_to_string (e : ErrorKind) : string :=
  match e with
  | Io e => "io error: " +:+ io_message e
  | InvalidUtf8Encoding => "invalid utf-8 encoding"
  end.

(** The [n] little-endian bytes of [x]. *)
Fixpoint le_bytes (n : nat) (x : Z) : list Z :=
  match n with
  | O => []
  | S n' => (x mod 256) :: le_bytes n' (x / 256)
  end.

Fixpoint le_value (bs : list Z) : Z :=
  match bs with
  | [] => 0
  | b :: r => b + 256 * le_value r
  end.

Definition eof : ErrorKind := Io (mkIoError IoUnexpectedEof "unexpected end of file").

(** [SliceReader::get_byte_slice]. *)
Definition read_bytes (n : Z) (bs : list Z) : result (list Z * list Z) ErrorKind :=
  if Z.of_nat (length bs) <? n then Err eof
  else Ok (firstn (Z.to_nat n) bs, skipn (Z.to_nat n) bs).

Definition read_u32 (bs : list Z) : result (Z * list Z) ErrorKind :=
  match read_bytes 4 bs with
  | Ok (b, r) => Ok (le_value b, r)
  | Err e => Err e
  end.

Definition read_u64 (bs : list Z) : result (Z * list Z) ErrorKind :=
  match read_bytes 8 bs with
  | Ok (b, r) => Ok (le_value b, r)
  | Err e => Err e
  end.

Definition cont_byte (b : Z) : bool := (128 <=? b) && (b <=? 191).

(** [String::from_utf8]'s validity check. *)
Fixpoint utf8_valid (bs : list Z) : bool :=
  match bs with
  | [] => true
  | b0 :: r0 =>
      if b0 <? 128 then utf8_valid r0
      else if (194 <=? b0) && (b0 <=? 223) then
        match r0 with
        | b1 :: r1 => cont_byte b1 && utf8_valid r1
        | [] => false
        end
      else if (224 <=? b0) && (b0 <=? 239) then
        match r0 with
        | b1 :: b2 :: r2 =>
            (if b0 =? 224 then (160 <=? b1) && (b1 <=? 191)
             else if b0 =? 237 then (128 <=? b1) && (b1 <=? 159)
             else cont_byte b1) && cont_byte b2 && utf8_valid r2
        | _ => false
        end
      else if (240 <=? b0) && (b0 <=? 244) then
        match r0 with
        | b1 :: b2 :: b3 :: r3 =>
            (if b0 =? 240 then (144 <=? b1) && (b1 <=? 191)
             else if b0 =? 244 then (128 <=? b1) && (b1 <=? 143)
             else cont_byte b1) && cont_byte b2 && cont_byte b3 && utf8_valid r3
        | _ => false
        end
      else false
  end.

(** [deserialize_string]: a [u64] length, that many bytes, valid UTF-8. *)
Definition read_string (bs : list Z) : result (list Z * list Z) ErrorKind :=
  match read_u64 bs with
  | Ok (len, r) =>
      match read_bytes len r with
      | Ok (s, r') => if utf8_valid s then Ok (s, r') else Err InvalidUtf8Encoding
      | Err e => Err e
      end
  | Err e => Err e
  end.

Definition serialize_u32 (x : Z) : list Z := le_bytes 4 x.
Definition serialize_string (s : list Z) : list Z := le_bytes 8 (Z.of_nat (length s)) ++ s.

(** The [TestStruct { field1: u32, field2: String }] of the codec's tests;
    [field2] holds the string's UTF-8 bytes. *)
Record TestStruct : Type := mkTestStruct {
  field1 : Z;
  field2 : list Z
}.

Definition serialize_test_struct (v : TestStruct) : list Z :=
  serialize_u32 (field1 v) ++ serialize_string (field2 v).

(** [bincode::deserialize::<TestStruct>]: trailing bytes are ignored. *)
Definition deserialize_test_struct (bs : list Z) : result TestStruct ErrorKind :=
  match read_u32 bs with
  | Ok (f1, r) =>
      match read_string r with
      | Ok (f2, _) => Ok (mkTestStruct f1 f2)
      | Err e => Err e
      end
  | Err e => Err e
  end.

(** [bincode::deserialize::<u32>] of a header buffer. *)
Definition deserialize_u32 (bs : list Z) : result Z ErrorKind :=
  match read_u32 bs with
  | Ok (x, _) => Ok x
  | Err e => Err e
  end.

(** [Vec<u8>] as a contract: a [u64] length and the bytes. *)
Definition serialize_vec_u8 (v : list Z) : option (list Z) := Some (serialize_string v).
Definition deserialize_vec_u8 (bs : list Z) : result (list Z) ErrorKind :=
  match read_u64 bs with
  | Ok (len, r) =>
      match read_bytes len r with
      | Ok (v, _) => Ok v
      | Err e => Err e
      end
  | Err e => Err e
  end.

(** [bincode::deserialize::<T>] for any [T] whose [Deserialize] drives
    bincode's slice reader: it takes [n] bytes, chooses its next step from
    the bytes read so far, and ends with a value or an error of its own. A
    read past the end of the input is [eof]. *)
Inductive reader (A : Type) : Type :=
| RDone (v : A)
| RFail (e : ErrorKind)
| RRead (n : nat) (k : list Z -> reader A).
Arguments RDone {A} v.
Arguments RFail {A} e.
Arguments RRead {A} n k.

(** The value and the bytes left unread. *)
Fixpoint run {A : Type} (r : reader A) (bs : list Z) : result (A * list Z) ErrorKind :=
  match r with
  | RDone v => Ok (v, bs)
  | RFail e => Err e
  | RRead n k =>
      if (n <=? length bs)%nat then run (k (firstn n bs)) (skipn n bs) else Err eof
  end.

(** [bincode::deserialize]: trailing bytes are ignored. *)
Definition deserialize_with {A : Type} (r : reader A) (bs : list Z) : result A ErrorKind :=
  match run r bs with
  | Ok (v, _) => Ok v
  | Err e => Err e
  end.

(** [TestStruct]'s derived [Deserialize] as such a reader. *)
Definition test_struct_reader : reader TestStruct :=
  RRead 4 (fun b =>
  RRead 8 (fun l =>
  RRead (Z.to_nat (le_value l)) (fun s =>
  if utf8_valid s then RDone (mkTestStruct (le_value b) s) else RFail InvalidUtf8Encoding))).

End Bincode.

(** ** serialization/codec.rs: [BincodeCodec] *)
Module Codec.
Section Codec.
Variable T : Type.
(** [bincode::deserialize::<T>] *)
Variable deserialize : list Z -> result T Bincode.ErrorKind.

(** [Decoder::decode]: the result and the buffer [src] after the call. *)
Definition decode (src : list Z) : result (option T) IoError * list Z :=
  (match deserialize src with
   | Ok item => Ok (Some item)
   | Err _ => Err (mkIoError IoOther "deserialize failed")
   end, src).
End Codec.
Arguments decode {T} deserialize src.

(** [Encoder::encode] for the tests' struct: the bytes are appended. *)
Definition encode (item : Bincode.TestStruct) (dst : list Z) : result unit IoError * list Z :=
  (Ok tt, dst ++ Bincode.serialize_test_struct item).
End Codec.

(** ** serialization/wrappers/bincode.rs: [BincodeContractWrapper] *)
Module BincodeWrapper.
Section Wrapper.
Variable T : Type.
Variable serialize : T -> option (list Z).
Variable deserialize : list Z -> result T Bincode.ErrorKind.

Record BincodeContractWrapper : Type := mkWrapper {
  header_bytes : option (list Z);
  contract_bytes : option (list Z);
  header : option Z;
  contract : option T
}.

Definition io_to_nano (e : IoError) : NanoServiceError :=
  NanoServiceError_new (io_message e) BadRequest.
Definition bincode_to_nano (e : Bincode.ErrorKind) : NanoServiceError :=
  NanoServiceError_new (Bincode.error_to_string e) BadRequest.

(** [new]: [contract_bytes.len() as u32] keeps the low 32 bits. *)
Definition new (c : T) : result BincodeContractWrapper NanoServiceError :=
  match serialize c with
  | None => Err (NanoServiceError_new "serialize failed" BadRequest)
  | Some cb =>
      let length := Z.of_nat (List.length cb) mod 2 ^ 32 in
      let header_bytes_buffer := Bincode.serialize_u32 length in
      if negb (List.length header_bytes_buffer =? 4)%nat then
        Err (NanoServiceError_new "Header bytes length is not 4." BadRequest)
      else Ok (mkWrapper (Some header_bytes_buffer) (Some cb) None None)
  end.

Definition empty : BincodeContractWrapper := mkWrapper None None None None.

(** [blocking_send]: the bytes written after [out]. *)
Definition blocking_send (w : BincodeContractWrapper) (out : list Z)
  : outcome (result unit NanoServiceError * list Z) :=
  match header_bytes w with
  | None => Panicked unwrap_none_msg
  | Some hb =>
      match contract_bytes w with
      | None => Panicked unwrap_none_msg
      | Some cb => Returned (Ok tt, out ++ hb ++ cb)
      end
  end.

(** [async_send]: the same steps, each write awaited. *)
Definition async_send (w : BincodeContractWrapper) (out : list Z)
  : outcome (result unit NanoServiceError * list Z) :=
  match header_bytes w with
  | None => Panicked unwrap_none_msg
  | Some hb =>
      match contract_bytes w with
      | None => Panicked unwrap_none_msg
      | Some cb => Returned (Ok tt, out ++ hb ++ cb)
      end
  end.

(** [blocking_receive]: the result, the updated wrapper and the rest of
    the stream. *)
Definition blocking_receive (w : BincodeContractWrapper) (stream : list Z)
  : result unit NanoServiceError * BincodeContractWrapper * list Z :=
  match read_exact 4 stream with
  | (Err e, s1) => (Err (io_to_nano e), w, s1)
  | (Ok header_buffer, s1) =>
      match Bincode.deserialize_u32 header_buffer with
      | Err e => (Err (bincode_to_nano e), w, s1)
      | Ok hdr =>
          match read_exact (Z.to_nat hdr) s1 with
          | (Err e, s2) => (Err (io_to_nano e), w, s2)
          | (Ok contract_buffer, s2) =>
              let w1 := mkWrapper (header_bytes w) (contract_bytes w) (Some hdr) (contract w) in
              match deserialize contract_buffer with
              | Err e => (Err (bincode_to_nano e), w1, s2)
              | Ok c => (Ok tt, mkWrapper (header_bytes w) (contract_bytes w) (Some hdr) (Some c), s2)
              end
          end
      end
  end.
(** [async_receive]: the same steps, each read awaited with tokio's
    [read_exact]. *)
Definition async_receive (w : BincodeContractWrapper) (stream : list Z)
  : result unit NanoServiceError * BincodeContractWrapper * list Z :=
  match async_read_exact 4 stream with
  | (Err e, s1) => (Err (io_to_nano e), w, s1)
  | (Ok header_buffer, s1) =>
      match Bincode.deserialize_u32 header_buffer with
      | Err e => (Err (bincode_to_nano e), w, s1)
      | Ok hdr =>
          match async_read_exact (Z.to_nat hdr) s1 with
          | (Err e, s2) => (Err (io_to_nano e), w, s2)
          | (Ok contract_buffer, s2) =>
              let w1 := mkWrapper (header_bytes w) (contract_bytes w) (Some hdr) (contract w) in
              match deserialize contract_buffer with
              | Err e => (Err (bincode_to_nano e), w1, s2)
              | Ok c => (Ok tt, mkWrapper (header_bytes w) (contract_bytes w) (Some hdr) (Some c), s2)
              end
          end
      end
  end.
End Wrapper.
Arguments mkWrapper {T} header_bytes contract_bytes header contract.
Arguments header_bytes {T} b.
Arguments contract_bytes {T} b.
Arguments header {T} b.
Arguments contract {T} b.
Arguments new {T} serialize c.
Arguments empty {T}.
Arguments blocking_send {T} w out.
Arguments async_send {T} w out.
Arguments blocking_receive {T} deserialize w stream.
Arguments async_receive {T} deserialize w stream.
End BincodeWrapper.

(** A [Vec<u8>] contract of [2^32 - 8] zero bytes: its bincode encoding
    is exactly [2^32] bytes long. *)
Definition oversized_payload : list Z := repeat 0 (Z.to_nat (2 ^ 32 - 8)).

(** ** serialization/wrappers/bitcode.rs: [BitcodeContractWrapper] *)
Module BitcodeWrapper.
Section Wrapper.
Variable T : Type.
(** [bitcode::encode] / [bitcode::decode] at [T], [u32] and [u8]; a
    decoding failure is the [to_string] of bitcode's error. *)
Variable encode_contract : T -> list Z.
Variable decode_contract : list Z -> result T string.
Variable encode_u32 : Z -> list Z.
Variable decode_u32 : list Z -> result Z string.
Variable decode_u8 : list Z -> result Z string.

Record BitcodeContractWrapper : Type := mkWrapper {
  pre_header_bytes : option (list Z);
  header_bytes : option (list Z);
  contract_bytes : option (list Z);
  pre_header : option Z;
  header : option Z;
  contract : option T
}.

Definition io_to_nano (e : IoError) : NanoServiceError :=
  NanoServiceError_new (io_message e) BadRequest.
Definition decode_error (m : string) : NanoServiceError :=
  NanoServiceError_new m BadRequest.
(** A short read of [std]'s and of tokio's [read_exact]. *)
Definition eof_error : NanoServiceError :=
  io_to_nano (mkIoError IoUnexpectedEof "failed to fill whole buffer").
Definition async_eof_error : NanoServiceError :=
  io_to_nano (mkIoError IoUnexpectedEof "early eof").

(** [new]: the pre-header is [header_bytes.len() as u8]. *)
Definition new (c : T) : result BitcodeContractWrapper NanoServiceError :=
  let cb := encode_contract c in
  let length := Z.of_nat (List.length cb) mod 2 ^ 32 in
  let hb := encode_u32 length in
  let pre_header_bytes := [Z.of_nat (List.length hb) mod 256] in
  Ok (mkWrapper (Some pre_header_bytes) (Some hb) (Some cb) None None None).

Definition empty : BitcodeContractWrapper := mkWrapper None None None None None None.

(** [blocking_send]: the bytes written after [out]. *)
Definition blocking_send (w : BitcodeContractWrapper) (out : list Z)
  : outcome (result unit NanoServiceError * list Z) :=
  match pre_header_bytes w with
  | None => Panicked unwrap_none_msg
  | Some pb =>
      match header_bytes w with
      | None => Panicked unwrap_none_msg
      | Some hb =>
          match contract_bytes w with
          | None => Panicked unwrap_none_msg
          | Some cb => Returned (Ok tt, out ++ pb ++ hb ++ cb)
          end
      end
  end.

(** [async_send] has the same body, each write awaited. *)
Definition async_send := blocking_send.

(** [blocking_receive]: the pre-header byte, then that many header bytes,
    then the payload; the result, the updated wrapper and the rest of the
    stream. *)
Definition blocking_receive (w : BitcodeContractWrapper) (stream : list Z)
  : result unit NanoServiceError * BitcodeContractWrapper * list Z :=
  match read_exact 1 stream with
  | (Err e, s1) => (Err (io_to_nano e), w, s1)
  | (Ok pre_header_buffer, s1) =>
      match decode_u8 pre_header_buffer with
      | Err m => (Err (decode_error m), w, s1)
      | Ok ph =>
          let w1 := mkWrapper (pre_header_bytes w) (header_bytes w) (contract_bytes w)
                      (Some ph) (header w) (contract w) in
          match read_exact (Z.to_nat ph) s1 with
          | (Err e, s2) => (Err (io_to_nano e), w1, s2)
          | (Ok header_buffer, s2) =>
              match decode_u32 header_buffer with
              | Err m => (Err (decode_error m), w1, s2)
              | Ok hdr =>
                  match read_exact (Z.to_nat hdr) s2 with
                  | (Err e, s3) => (Err (io_to_nano e), w1, s3)
                  | (Ok contract_buffer, s3) =>
                      let w2 := mkWrapper (pre_header_bytes w) (header_bytes w)
                                  (contract_bytes w) (Some ph) (Some hdr) (contract w) in
                      match decode_contract contract_buffer with
                      | Err m => (Err (decode_error m), w2, s3)
                      | Ok c =>
                          (Ok tt, mkWrapper (pre_header_bytes w) (header_bytes w)
                                    (contract_bytes w) (Some ph) (Some hdr) (Some c), s3)
                      end
                  end
              end
          end
      end
  end.

(** [async_receive]: the same steps, each read awaited with tokio's
    [read_exact]. *)
Definition async_receive (w : BitcodeContractWrapper) (stream : list Z)
  : result unit NanoServiceError * BitcodeContractWrapper * list Z :=
  match async_read_exact 1 stream with
  | (Err e, s1) => (Err (io_to_nano e), w, s1)
  | (Ok pre_header_buffer, s1) =>
      match decode_u8 pre_header_buffer with
      | Err m => (Err (decode_error m), w, s1)
      | Ok ph =>
          let w1 := mkWrapper (pre_header_bytes w) (header_bytes w) (contract_bytes w)
                      (Some ph) (header w) (contract w) in
          match async_read_exact (Z.to_nat ph) s1 with
          | (Err e, s2) => (Err (io_to_nano e), w1, s2)
          | (Ok header_buffer, s2) =>
              match decode_u32 header_buffer with
              | Err m => (Err (decode_error m), w1, s2)
              | Ok hdr =>
                  match async_read_exact (Z.to_nat hdr) s2 with
                  | (Err e, s3) => (Err (io_to_nano e), w1, s3)
                  | (Ok contract_buffer, s3) =>
                      let w2 := mkWrapper (pre_header_bytes w) (header_bytes w)
                                  (contract_bytes w) (Some ph) (Some hdr) (contract w) in
                      match decode_contract contract_buffer with
                      | Err m => (Err (decode_error m), w2, s3)
                      | Ok c =>
                          (Ok tt, mkWrapper (pre_header_bytes w) (header_bytes w)
                                    (contract_bytes w) (Some ph) (Some hdr) (Some c), s3)
                      end
                  end
              end
          end
      end
  end.
End Wrapper.
Arguments mkWrapper {T} pre_header_bytes header_bytes contract_bytes pre_header header contract.
Arguments pre_header_bytes {T} b.
Arguments header_bytes {T} b.
Arguments contract_bytes {T} b.
Arguments pre_header {T} b.
Arguments header {T} b.
Arguments contract {T} b.
Arguments new {T} encode_contract encode_u32 c.
Arguments empty {T}.
Arguments blocking_send {T} w out.
Arguments async_send {T} w out.
Arguments blocking_receive {T} decode_contract decode_u32 decode_u8 w stream.
Arguments async_receive {T} decode_contract decode_u32 decode_u8 w stream.
End BitcodeWrapper.

(** ** tokio_pub_sub.rs: the event bus of [config_tokio_event_runtime!] *)
Module EventBus.
Section Bus.
(** [EventFunction = fn(Vec<u8>) -> Pin<Box<dyn Future<Output = ()>>>] *)
Variable EventFunction : Type.

(** The [HASHMAP] registry, the futures handed to [tokio::spawn] (each
    the call of a subscriber on a copy of the data), and standard output. *)
Record BusState : Type := mkBusState {
  registry : gmap string (list EventFunction);
  spawned : list (EventFunction * list Z);
  stdout : list string
}.

Definition get_from_hashmap (name : string) (st : BusState) : option (list EventFunction) :=
  registry st !! name.

Definition insert_into_hashmap (name : string) (func : EventFunction) (st : BusState)
  : unit * BusState :=
  let buffer := default [] (get_from_hashmap name st) in
  (tt, mkBusState (<[name := buffer ++ [func]]> (registry st)) (spawned st) (stdout st)).

Definition publish_event (name : string) (data : list Z) (st : BusState) : unit * BusState :=
  match get_from_hashmap name st with
  | None => (tt, mkBusState (registry st) (spawned st)
                   (stdout st ++ ["No subscribers for event: " +:+ name]))
  | Some buffer =>
      (tt, mkBusState (registry st) (spawned st ++ map (fun f => (f, data)) buffer) (stdout st))
  end.
End Bus.
Arguments mkBusState {EventFunction} registry spawned stdout.
Arguments registry {EventFunction} b.
Arguments spawned {EventFunction} b.
Arguments stdout {EventFunction} b.
Arguments get_from_hashmap {EventFunction} name st.
Arguments insert_into_hashmap {EventFunction} name func st.
Arguments publish_event {EventFunction} name data st.
End EventBus.

(** ** The wasm guest bridge: networking/wasm/routing.rs (guest) and
    tests/wasm/client/src/main.rs (host) *)
Module GuestBridge.

(** The guest instance: its linear memory, the top of its heap, and the
    logs of the blocks its allocator hands out and of the [ns_free] calls it
    receives, as [(pointer, size)]. Addresses and sizes are [u32] values;
    an [i32] that crosses the boundary is its 32-bit pattern. *)
Record Guest : Type := mkGuest {
  memory : gmap Z Z;
  heap_top : Z;
  allocs : list (Z * Z);
  frees : list (Z * Z)
}.

Definition wrap32 (x : Z) : Z := x mod 2 ^ 32.

(** The guest's allocator: a fresh block at the top of the heap, [8]-byte
    granular, at least one granule. *)
Definition alloc (size : Z) (g : Guest) : Z * Guest :=
  let p := heap_top g in
  (p, mkGuest (memory g) (p + ((Z.max size 1 + 7) / 8) * 8)
        (allocs g ++ [(p, size)]) (frees g)).

(** [ns_malloc(size, alignment)] *)
Definition ns_malloc (size alignment : Z) (g : Guest) : Z * Guest := alloc size g.

(** [ns_free(ptr, size, alignment)] *)
Definition ns_free (ptr size alignment : Z) (g : Guest) : Guest :=
  mkGuest (memory g) (heap_top g) (allocs g) (frees g ++ [(ptr, size)]).

(** A [Vec<u8>] of capacity [n]: a zero capacity allocates nothing and
    uses the dangling pointer [NonNull::dangling()], i.e. [1]. *)
Definition vec_with_capacity (n : Z) (g : Guest) : Z * Guest :=
  if n =? 0 then (1, g) else alloc n g.

Fixpoint mem_write (addr : Z) (bs : list Z) (m : gmap Z Z) : gmap Z Z :=
  match bs with
  | [] => m
  | b :: r => mem_write (addr + 1) r (<[addr := b]> m)
  end.

Definition mem_read (addr : Z) (n : nat) (m : gmap Z Z) : list Z :=
  map (fun i => default 0 (m !! (addr + Z.of_nat i))) (seq 0 n).

Definition write (addr : Z) (bs : list Z) (g : Guest) : Guest :=
  mkGuest (mem_write addr bs (memory g)) (heap_top g) (allocs g) (frees g).

(** The exported [<tag>_contract(ptr, len)] of one contract:
    [contract_fn] is its [bincode::deserialize], handler and
    [bincode::serialize], [None] where one of their [unwrap]s panics. The
    result bytes are leaked and a boxed [ContractPointer { ptr, len }]
    ([repr(C)], two little-endian [i32]s) is returned. *)
Definition entry_point (contract_fn : list Z -> option (list Z)) (ptr len : Z) (g : Guest)
  : option (Z * Guest) :=
  let bytes := mem_read ptr (Z.to_nat len) (memory g) in
  match contract_fn bytes with
  | None => None
  | Some serialized_data =>
      let n := Z.of_nat (length serialized_data) in
      let (out_ptr, g1) := vec_with_capacity n g in
      let g2 := write out_ptr serialized_data g1 in
      let (box_ptr, g3) := alloc 8 g2 in
      let g4 := write box_ptr (Bincode.le_bytes 4 (wrap32 out_ptr) ++ Bincode.le_bytes 4 (wrap32 n)) g3 in
      Some (wrap32 box_ptr, g4)
  end.

Section Host.
Variable P : Type.
Variable variants : list string.
Variable ser : string -> P -> option (list Z).
Variable de : string -> list Z -> option P.
Variable ser_error : NanoServiceError -> option (list Z).
(** The guest's exports by name: [get_typed_func(&name_ref)]. *)
Variable exports : string -> option (list Z -> option (list Z)).

(** The host's sequence of [main], from [to_string_ref] to the last
    [ns_free]; [None] where one of its [unwrap]s panics. *)
Definition host_call (c : Contract.Envelope P) (g : Guest)
  : option (Contract.Envelope P * Guest) :=
  let name_ref := Contract.to_string_ref c in
  match Contract.to_contract_bytes ser ser_error c with
  | Err _ => None
  | Ok serialized =>
      let len := wrap32 (Z.of_nat (length serialized)) in
      let (input_data_ptr, g1) := ns_malloc len 0 g in
      let g2 := write input_data_ptr serialized g1 in
      match exports name_ref with
      | None => None
      | Some f =>
          match entry_point f input_data_ptr len g2 with
          | None => None
          | Some (ret, g3) =>
              let contract_result_buffer := mem_read ret 8 (memory g3) in
              let result_ptr := Bincode.le_value (take 4 contract_result_buffer) in
              let result_len := Bincode.le_value (drop 4 contract_result_buffer) in
              if 2 ^ 31 <=? result_len then None
              else
                let output_contract_buffer :=
                  mem_read result_ptr (Z.to_nat result_len) (memory g3) in
                match Contract.from_contract_bytes variants de output_contract_buffer name_ref with
                | Err _ => None
                | Ok contract =>
                    let g4 := ns_free input_data_ptr len 0 g3 in
                    let g5 := ns_free result_ptr result_len 0 g4 in
                    let g6 := ns_free ret 8 0 g5 in
                    Some (contract, g6)
                end
          end
      end
  end.
End Host.
Arguments host_call {P} variants ser de ser_error exports c g.

(** A guest compiled with [ContractTwo] as a field-less contract whose
    handler returns its input: bincode encodes it as no bytes. *)
Definition unit_exports (name : string) : option (list Z -> option (list Z)) :=
  if String.eqb name "contracttwo_contract" then Some (fun _ => Some []) else None.

Definition fresh_guest : Guest := mkGuest ∅ 1024 [] [].
End GuestBridge.

(** ** Instances used by the examples *)

(** Routes of [i32] contracts: [ContractOne] answers its input plus one,
    [ContractTwo] refuses. *)
Definition test_routes : list (string * (Z -> result Z NanoServiceError)) :=
  [("ContractOne", fun age => Ok (age + 1));
   ("ContractTwo", fun _ => Err (NanoServiceError_new "refused" Forbidden))].

(** A one-byte encoding of [bool], a fixed four-byte little-endian [u32]
    and a one-byte [u8], for the bitcode wrapper's examples. *)
Definition bool_encode (b : bool) : list Z := [if b then 1 else 0].
Definition bool_decode (bs : list Z) : result bool string :=
  match bs with
  | [x] => if x =? 1 then Ok true else if x =? 0 then Ok false else Err "invalid bool"
  | _ => Err "expected one byte"
  end.
Definition u32_encode (x : Z) : list Z := Bincode.le_bytes 4 x.
Definition u32_decode (bs : list Z) : result Z string :=
  if (length bs =? 4)%nat then Ok (Bincode.le_value bs) else Err "expected four bytes".
Definition u8_decode (bs : list Z) : result Z string :=
  match bs with [b] => Ok b | _ => Err "expected one byte" end.

(** A one-byte [bool] contract for the bincode wrapper's examples. *)
Definition bool_serialize (b : bool) : option (list Z) := Some (bool_encode b).
Definition bool_deserialize (bs : list Z) : result bool Bincode.ErrorKind :=
  match bool_decode bs with
  | Ok b => Ok b
  | Err _ => Err Bincode.eof
  end.

(** * Properties *)

(** ** Envelope tags and byte round trip *)
Section ContractFacts.
Import Contract.
Context {P : Type} (variants : list string).
Context (ser : string -> P -> option (list Z)) (de : string -> list Z -> option P).
Context (ser_error : NanoServiceError -> option (list Z)).

Lemma contract_tag_not_error_ref (v : string) :
  contract_tag v <> "nanoService_error".
Proof.
  unfold contract_tag. generalize (to_lowercase v) as s. intros s H.
  repeat (destruct s as [|? s]; simpl in H;
          [discriminate | try discriminate; injection H as Hc H; clear Hc]).
Qed.

Lemma from_contract_bytes_go_error_ref (vs : list string) (bytes : list Z) :
  from_contract_bytes_go de vs bytes "nanoService_error"
  = Err (NanoServiceError_new "Failed to deserialize contract" BadRequest).
Proof.
  induction vs as [|v vs IH]; cbn [from_contract_bytes_go]; [reflexivity|].
  destruct (String.eqb_spec "nanoService_error" (contract_tag v)) as [E|_].
  - exfalso. exact (contract_tag_not_error_ref v (eq_sym E)).
  - exact IH.
Qed.

Lemma from_contract_bytes_go_tag (vs : list string) (bytes : list Z) (n : string) (p : P) :
  n ∈ vs ->
  (forall w, w ∈ vs -> contract_tag w = contract_tag n -> w = n) ->
  de n bytes = Some p ->
  from_contract_bytes_go de vs bytes (contract_tag n) = Ok (ContractVariant n p).
Proof.
  induction vs as [|v vs IH]; intros Hin Huniq Hde.
  - apply not_elem_of_nil in Hin as [].
  - cbn [from_contract_bytes_go].
    destruct (String.eqb_spec (contract_tag n) (contract_tag v)) as [E|E].
    + assert (v = n) as -> by (apply Huniq; [apply elem_of_cons; left; reflexivity | symmetry; exact E]).
      rewrite Hde. reflexivity.
    + apply IH.
      * apply elem_of_cons in Hin as [->|Hin]; [congruence | exact Hin].
      * intros w Hw. apply Huniq. apply elem_of_cons. right. exact Hw.
      * exact Hde.
Qed.

(** C1 (amended): an envelope carrying a declared contract survives
    [to_contract_bytes] followed by [from_contract_bytes] with its own tag,
    provided [bincode] round-trips the payload and no other declared variant
    has the same lowercased tag; an envelope carrying the [NanoServiceError]
    variant never does: its tag ["nanoService_error"] matches no branch of
    [from_contract_bytes], which returns the [BadRequest] error
    ["Failed to deserialize contract"]. *)
Theorem envelope_roundtrip_amended :
  (forall n p b, ser n p = Some b -> de n b = Some p) ->
  (forall n p b,
     n ∈ variants ->
     (forall w, w ∈ variants -> contract_tag w = contract_tag n -> w = n) ->
     to_contract_bytes ser ser_error (ContractVariant n p) = Ok b ->
     from_contract_bytes variants de b (to_string_ref (ContractVariant n p))
     = Ok (ContractVariant n p)) /\
  (forall (err : NanoServiceError) b,
     from_contract_bytes variants de b (to_string_ref (@ErrorVariant P err))
     = Err (NanoServiceError_new "Failed to deserialize contract" BadRequest)).
Proof.
  intros Hcodec. split.
  - intros n p b Hin Huniq Hto. cbn [to_contract_bytes to_string_ref] in *.
    destruct (ser n p) as [b'|] eqn:Hser; [|discriminate].
    injection Hto as <-.
    apply from_contract_bytes_go_tag; [exact Hin | exact Huniq | exact (Hcodec _ _ _ Hser)].
  - intros err b. apply from_contract_bytes_go_error_ref.
Qed.

(** C3 (amended): the accessor of variant [v] returns the payload of a [v]
    envelope, a [BadRequest] error ["Expected variant: v"] for another
    contract variant, and the carried error itself, unchanged, for the
    [NanoServiceError] variant; the [NanoServiceError] accessor returns the
    carried error, or a [BadRequest] error
    ["Expected variant: NanoServiceError"] for any contract variant. *)
Theorem narrowing_accessor_amended (v : string) :
  (forall inner : P, variant_accessor v (ContractVariant v inner) = Ok inner) /\
  (forall n (inner : P), n <> v ->
     variant_accessor v (ContractVariant n inner)
     = Err (NanoServiceError_new ("Expected variant: " +:+ v) BadRequest)) /\
  (forall err, variant_accessor v (@ErrorVariant P err) = Err err) /\
  (forall err, NanoServiceError_accessor (@ErrorVariant P err) = Ok err) /\
  (forall n (inner : P),
     NanoServiceError_accessor (ContractVariant n inner)
     = Err (NanoServiceError_new "Expected variant: NanoServiceError" BadRequest)).
Proof.
  split; [|split; [|split; [|split]]].
  - intros inner. cbn [variant_accessor]. rewrite String.eqb_refl. reflexivity.
  - intros n inner Hne. cbn [variant_accessor].
    destruct (String.eqb_spec n v) as [E|_]; [contradiction | reflexivity].
  - reflexivity.
  - reflexivity.
  - reflexivity.
Qed.

(** C7: the tag of an envelope carrying contract [n] is the lowercased
    type name followed by ["_contract"], whatever the payload. *)
Theorem string_ref_tag_stable (n : string) (p q : P) :
  to_string_ref (ContractVariant n p) = to_lowercase n +:+ "_contract" /\
  to_string_ref (ContractVariant n p) = to_string_ref (ContractVariant n q).
Proof. split; reflexivity. Qed.

End ContractFacts.

(** ** Dispatch *)
Section RoutingFacts.
Import Contract.
Context {P : Type}.

Lemma route_arms_bound (rs : list (string * (P -> result P NanoServiceError)))
    (n : string) (inner : P) h :
  bound_handler n rs = Some h ->
  route_arms rs (ContractVariant n inner)
  = match h inner with
    | Ok x => Ok (ContractVariant n x)
    | Err e => Err e
    end.
Proof.
  induction rs as [|[c hc] rs IH]; cbn [bound_handler route_arms]; [discriminate|].
  destruct (String.eqb_spec n c) as [->|_]; [|exact IH].
  intros Heq. injection Heq as <-. reflexivity.
Qed.

Lemma route_arms_unbound (rs : list (string * (P -> result P NanoServiceError)))
    (n : string) (inner : P) :
  bound_handler n rs = None ->
  route_arms rs (ContractVariant n inner) = Err unknown_contract_error.
Proof.
  induction rs as [|[c hc] rs IH]; cbn [bound_handler route_arms]; [reflexivity|].
  destruct (String.eqb_spec n c) as [_|_]; [discriminate | exact IH].
Qed.

Lemma route_arms_error (rs : list (string * (P -> result P NanoServiceError)))
    (err : NanoServiceError) :
  route_arms rs (ErrorVariant err) = Err unknown_contract_error.
Proof. induction rs as [|[c hc] rs IH]; [reflexivity | exact IH]. Qed.

(** C2: [route] runs the handler bound to the envelope's contract on the
    unwrapped payload, re-wraps a success in the same variant and returns a
    handler error unchanged; an envelope whose contract has no bound handler,
    and the [NanoServiceError] variant, give the [ContractNotSupported]
    error. [route] is a total function: it has no panicking path. *)
Theorem route_dispatch (routes : list (string * (P -> result P NanoServiceError))) :
  (forall n inner h x, bound_handler n routes = Some h -> h inner = Ok x ->
     route routes (ContractVariant n inner) = Ok (ContractVariant n x)) /\
  (forall n inner h e, bound_handler n routes = Some h -> h inner = Err e ->
     route routes (ContractVariant n inner) = Err e) /\
  (forall n inner, bound_handler n routes = None ->
     route routes (ContractVariant n inner) = Err unknown_contract_error) /\
  (forall err, route routes (ErrorVariant err) = Err unknown_contract_error) /\
  status unknown_contract_error = ContractNotSupported.
Proof.
  split; [|split; [|split; [|split]]].
  - intros n inner h x Hb Hx. unfold route. rewrite (route_arms_bound _ _ _ _ Hb), Hx.
    reflexivity.
  - intros n inner h e Hb He. unfold route. rewrite (route_arms_bound _ _ _ _ Hb), He.
    reflexivity.
  - intros n inner Hb. apply route_arms_unbound, Hb.
  - intros err. apply route_arms_error.
  - reflexivity.
Qed.

End RoutingFacts.

(** C1 fails on the handler of the crate's tests: the error envelope does
    not come back from its own bytes and tag. *)
Lemma envelope_roundtrip_error_variant_fails :
  ~ (forall (e : Contract.Envelope unit) b,
       Contract.to_contract_bytes Contract.unit_ser (fun _ => Some [0; 0; 0; 0]) e = Ok b ->
       Contract.from_contract_bytes Contract.test_variants Contract.unit_de b
         (Contract.to_string_ref e) = Ok e).
Proof.
  intros H.
  specialize (H (Contract.ErrorVariant (NanoServiceError_new "boom" NotFound))
                [0; 0; 0; 0] eq_refl).
  vm_compute in H. discriminate.
Qed.

(** C3 fails on the handler of the crate's tests: narrowing an error
    envelope to [ContractOne] returns the carried [NotFound] error, not a
    [BadRequest] error naming [ContractOne]. *)
Lemma narrowing_accessor_error_variant_fails :
  ~ (forall v (e : Contract.Envelope unit),
       v ∈ Contract.test_variants ->
       (forall inner, e <> Contract.ContractVariant v inner) ->
       exists m, Contract.variant_accessor v e = Err (mkNanoServiceError m BadRequest)).
Proof.
  intros H.
  destruct (H "ContractOne" (Contract.ErrorVariant (NanoServiceError_new "boom" NotFound)))
    as [m Hm].
  - apply elem_of_cons. left. reflexivity.
  - intros inner. discriminate.
  - cbn in Hm. discriminate.
Qed.

(** * Witnesses *)

Lemma envelope_roundtrip_amended_witness :
  Contract.from_contract_bytes Contract.test_variants Contract.unit_de []
    (Contract.to_string_ref (Contract.ContractVariant "ContractTwo" tt))
  = Ok (Contract.ContractVariant "ContractTwo" tt).
Proof.
  apply (proj1 (envelope_roundtrip_amended Contract.test_variants Contract.unit_ser
                  Contract.unit_de (fun _ => Some []) ltac:(intros ? [] ? ?; reflexivity))).
  - apply elem_of_cons. right. apply elem_of_cons. left. reflexivity.
  - intros w Hw Ht. repeat (apply elem_of_cons in Hw as [->|Hw]);
      [vm_compute in Ht; discriminate | reflexivity | vm_compute in Ht; discriminate
      | apply not_elem_of_nil in Hw as []].
  - reflexivity.
Defined.

Lemma narrowing_accessor_amended_witness :
  Contract.variant_accessor "ContractOne" (Contract.ContractVariant "ContractTwo" tt)
  = Err (NanoServiceError_new "Expected variant: ContractOne" BadRequest).
Proof.
  apply (proj1 (proj2 (narrowing_accessor_amended "ContractOne"))).
  discriminate.
Defined.

Lemma route_dispatch_witness :
  Contract.route test_routes (Contract.ContractVariant "ContractOne" 32)
    = Ok (Contract.ContractVariant "ContractOne" 33) /\
  Contract.route test_routes (Contract.ContractVariant "ContractTwo" 0)
    = Err (NanoServiceError_new "refused" Forbidden) /\
  Contract.route test_routes (Contract.ContractVariant "ContractThree" 0)
    = Err Contract.unknown_contract_error.
Proof.
  destruct (route_dispatch test_routes) as (H1 & H2 & H3 & _).
  split; [|split].
  - apply (H1 "ContractOne" 32 (fun age => Ok (age + 1)) 33); reflexivity.
  - apply (H2 "ContractTwo" 0 (fun _ => Err (NanoServiceError_new "refused" Forbidden))
             (NanoServiceError_new "refused" Forbidden)); reflexivity.
  - apply H3. reflexivity.
Defined.

(** ** bincode encodings *)
Section BincodeFacts.
Import Bincode.

Lemma length_le_bytes (n : nat) (x : Z) : length (le_bytes n x) = n.
Proof. revert x. induction n as [|n IH]; intros x; simpl; [reflexivity | rewrite IH; reflexivity]. Qed.

Lemma le_value_le_bytes (n : nat) (x : Z) :
  le_value (le_bytes n x) = x mod 2 ^ (8 * Z.of_nat n).
Proof.
  revert x. induction n as [|n IH]; intros x; cbn [le_bytes le_value].
  - rewrite Z.mul_0_r, Z.pow_0_r, Z.mod_1_r. reflexivity.
  - rewrite IH.
    replace (8 * Z.of_nat (S n)) with (8 + 8 * Z.of_nat n) by lia.
    rewrite Z.pow_add_r by lia. change (2 ^ 8) with 256.
    rewrite (Z.rem_mul_r x 256 (2 ^ (8 * Z.of_nat n))) by lia. reflexivity.
Qed.

Lemma read_bytes_app (n : Z) (a rest : list Z) :
  n = Z.of_nat (length a) -> read_bytes n (a ++ rest) = Ok (a, rest).
Proof.
  intros ->. unfold read_bytes. rewrite length_app.
  destruct (Z.ltb_spec (Z.of_nat (length a + length rest)) (Z.of_nat (length a))) as [H|_];
    [lia|].
  rewrite Nat2Z.id, take_app_length, drop_app_length. reflexivity.
Qed.

Lemma read_bytes_short (n : Z) (bs : list Z) :
  Z.of_nat (length bs) < n -> read_bytes n bs = Err eof.
Proof. intros H. unfold read_bytes. destruct (Z.ltb_spec (Z.of_nat (length bs)) n); [reflexivity | lia]. Qed.

Lemma read_u32_app (a rest : list Z) :
  length a = 4%nat -> read_u32 (a ++ rest) = Ok (le_value a, rest).
Proof. intros H. unfold read_u32. rewrite read_bytes_app by (rewrite H; reflexivity). reflexivity. Qed.

Lemma read_u64_app (a rest : list Z) :
  length a = 8%nat -> read_u64 (a ++ rest) = Ok (le_value a, rest).
Proof. intros H. unfold read_u64. rewrite read_bytes_app by (rewrite H; reflexivity). reflexivity. Qed.

Lemma read_u32_short (bs : list Z) : (length bs < 4)%nat -> read_u32 bs = Err eof.
Proof. intros H. unfold read_u32. rewrite read_bytes_short by lia. reflexivity. Qed.

Lemma read_u64_short (bs : list Z) : (length bs < 8)%nat -> read_u64 bs = Err eof.
Proof. intros H. unfold read_u64. rewrite read_bytes_short by lia. reflexivity. Qed.

Lemma le_value_u32 (x : Z) : 0 <= x < 2 ^ 32 -> le_value (le_bytes 4 x) = x.
Proof. intros H. rewrite le_value_le_bytes. apply Z.mod_small. exact H. Qed.

Lemma le_value_u64 (x : Z) : 0 <= x < 2 ^ 64 -> le_value (le_bytes 8 x) = x.
Proof. intros H. rewrite le_value_le_bytes. apply Z.mod_small. exact H. Qed.

Lemma take_app_ge (k : nat) (a b : list Z) :
  (length a <= k)%nat -> take k (a ++ b) = a ++ take (k - length a) b.
Proof. intros H. rewrite take_app, take_ge by lia. reflexivity. Qed.

Lemma deserialize_test_struct_roundtrip (v : TestStruct) (rest : list Z) :
  0 <= field1 v < 2 ^ 32 -> Z.of_nat (length (field2 v)) < 2 ^ 64 ->
  utf8_valid (field2 v) = true ->
  deserialize_test_struct (serialize_test_struct v ++ rest) = Ok v.
Proof.
  destruct v as [f1 f2]; cbn [field1 field2]. intros H1 H2 Hu.
  unfold deserialize_test_struct, serialize_test_struct, serialize_u32, serialize_string.
  rewrite <- !app_assoc, read_u32_app by apply length_le_bytes.
  rewrite le_value_u32 by exact H1.
  unfold read_string. rewrite read_u64_app by apply length_le_bytes.
  rewrite le_value_u64 by (split; [lia | exact H2]).
  rewrite read_bytes_app by reflexivity. cbn [field1 field2]. rewrite Hu. reflexivity.
Qed.

Lemma deserialize_test_struct_prefix (v : TestStruct) (k : nat) :
  Z.of_nat (length (field2 v)) < 2 ^ 64 ->
  (k < length (serialize_test_struct v))%nat ->
  deserialize_test_struct (take k (serialize_test_struct v)) = Err eof.
Proof.
  destruct v as [f1 f2]; cbn [field1 field2]. intros H2 Hk.
  unfold serialize_test_struct, serialize_u32, serialize_string in *.
  rewrite !length_app, !length_le_bytes in Hk.
  unfold deserialize_test_struct.
  destruct (Nat.lt_ge_cases k 4) as [Hk4|Hk4].
  - rewrite read_u32_short; [reflexivity|].
    rewrite length_take, length_app, length_le_bytes. lia.
  - rewrite take_app_ge by (rewrite length_le_bytes; lia).
    rewrite read_u32_app by apply length_le_bytes.
    unfold read_string. rewrite length_le_bytes.
    destruct (Nat.lt_ge_cases (k - 4) 8) as [Hk8|Hk8].
    + rewrite read_u64_short; [reflexivity|].
      rewrite length_take, length_app, length_le_bytes. lia.
    + rewrite take_app_ge by (rewrite length_le_bytes; lia).
      rewrite read_u64_app by apply length_le_bytes.
      rewrite le_value_u64 by (cbn [field1 field2]; split; [lia | exact H2]).
      rewrite read_bytes_short; [reflexivity|].
      rewrite length_take, length_le_bytes. cbn [field1 field2] in *. lia.
Qed.

Lemma run_read_app {A : Type} (n : nat) (k : list Z -> reader A) (a rest : list Z) :
  length a = n -> run (RRead n k) (a ++ rest) = run (k a) rest.
Proof.
  intros <-. cbn [run]. rewrite length_app.
  destruct (Nat.leb_spec (length a) (length a + length rest)) as [_|H]; [|lia].
  rewrite take_app_length, drop_app_length. reflexivity.
Qed.

(** A reader that consumes exactly [e] fails with [eof] on every strict
    prefix of [e] ... *)
Lemma run_prefix {A : Type} (r : reader A) (e : list Z) (v : A) :
  run r e = Ok (v, []) -> forall k, (k < length e)%nat -> run r (take k e) = Err eof.
Proof.
  revert e. induction r as [v'|er|n kont IH]; intros e He k Hk; cbn [run] in *.
  - injection He as _ ->. cbn in Hk. lia.
  - discriminate.
  - destruct (Nat.leb_spec n (length e)) as [Hn|Hn]; [|discriminate].
    rewrite length_take.
    destruct (Nat.leb_spec n (Nat.min k (length e))) as [Hnk|Hnk]; [|reflexivity].
    rewrite take_take. replace (Nat.min n k) with n by lia.
    assert (Hd : drop n (take k e) = take (k - n) (drop n e)).
    { rewrite take_drop_commute. f_equal. f_equal. lia. }
    rewrite Hd. apply (IH (take n e) (drop n e) He). rewrite length_drop. lia.
Qed.

(** ... and reads [e] followed by anything as the same value. *)
Lemma run_app {A : Type} (r : reader A) (e rest : list Z) (v : A) :
  run r e = Ok (v, []) -> run r (e ++ rest) = Ok (v, rest).
Proof.
  revert e. induction r as [v'|er|n kont IH]; intros e He; cbn [run] in *.
  - injection He as -> ->. reflexivity.
  - discriminate.
  - destruct (Nat.leb_spec n (length e)) as [Hn|Hn]; [|discriminate].
    rewrite length_app.
    destruct (Nat.leb_spec n (length e + length rest)) as [_|H]; [|lia].
    rewrite take_app_le, drop_app_le by exact Hn. apply IH. exact He.
Qed.

Lemma test_struct_reader_encoding (v : TestStruct) (rest : list Z) :
  0 <= field1 v < 2 ^ 32 -> Z.of_nat (length (field2 v)) < 2 ^ 64 ->
  utf8_valid (field2 v) = true ->
  run test_struct_reader (serialize_test_struct v ++ rest) = Ok (v, rest).
Proof.
  destruct v as [f1 f2]; cbn [field1 field2]. intros H1 H2 Hu.
  unfold test_struct_reader, serialize_test_struct, serialize_u32, serialize_string.
  rewrite <- !app_assoc.
  rewrite run_read_app by apply length_le_bytes. cbv beta.
  rewrite run_read_app by apply length_le_bytes. cbv beta.
  rewrite le_value_u64 by (split; [lia | exact H2]). rewrite Nat2Z.id.
  rewrite run_read_app by reflexivity. cbv beta. cbn [field1 field2]. rewrite Hu. cbn [run].
  rewrite le_value_u32 by exact H1. reflexivity.
Qed.

Lemma deserialize_test_struct_reader (bs : list Z) :
  deserialize_test_struct bs = deserialize_with test_struct_reader bs.
Proof.
  unfold deserialize_test_struct, deserialize_with, test_struct_reader,
    read_u32, read_string, read_u64, read_bytes. cbn [run].
  destruct (Nat.leb_spec 4 (length bs)), (Z.ltb_spec (Z.of_nat (length bs)) 4);
    try lia; [|reflexivity].
  change (Z.to_nat 4) with 4%nat. cbn [run].
  set (r := drop 4 bs).
  destruct (Nat.leb_spec 8 (length r)), (Z.ltb_spec (Z.of_nat (length r)) 8);
    try lia; [|reflexivity].
  change (Z.to_nat 8) with 8%nat. cbn [run].
  set (r2 := drop 8 r). set (len := le_value (take 8 r)).
  destruct (Z.le_gt_cases 0 len).
  - destruct (Nat.leb_spec (Z.to_nat len) (length r2)), (Z.ltb_spec (Z.of_nat (length r2)) len);
      try lia; [|reflexivity].
    cbn [run]. destruct (utf8_valid (take (Z.to_nat len) r2)); reflexivity.
  - replace (Z.to_nat len) with 0%nat by lia.
    destruct (Z.ltb_spec (Z.of_nat (length r2)) len); [lia|].
    destruct (Nat.leb_spec 0 (length r2)); [|lia].
    cbn [run]. destruct (utf8_valid (take 0 r2)); reflexivity.
Qed.

End BincodeFacts.

(** ** The streaming codec *)

(** C4 (amended): [BincodeCodec::decode], for any item type [T], never
    consumes the buffer, never panics and never answers [Ok(None)]. When
    [T]'s bincode deserializer reads exactly the bytes [e] of an encoded
    item, a buffer holding a strict prefix of [e] gives the [Other]-kind
    I/O error ["deserialize failed"], and a buffer that starts with [e]
    gives [Ok(Some item)], trailing bytes ignored. The codec's [TestStruct]
    is such a type: its deserializer is a reader that reads its encoding
    exactly. *)
Theorem codec_decode_amended :
  (forall (T : Type) (deserialize : list Z -> result T Bincode.ErrorKind) src,
     snd (Codec.decode deserialize src) = src /\ fst (Codec.decode deserialize src) <> Ok None) /\
  (forall (T : Type) (r : Bincode.reader T) (e : list Z) (v : T),
     Bincode.run r e = Ok (v, []) ->
     (forall k, (k < length e)%nat ->
        Codec.decode (Bincode.deserialize_with r) (take k e)
        = (Err (mkIoError IoOther "deserialize failed"), take k e)) /\
     (forall rest,
        Codec.decode (Bincode.deserialize_with r) (e ++ rest) = (Ok (Some v), e ++ rest))) /\
  (forall bs, Bincode.deserialize_test_struct bs
              = Bincode.deserialize_with Bincode.test_struct_reader bs) /\
  (forall v : Bincode.TestStruct,
     0 <= Bincode.field1 v < 2 ^ 32 ->
     Z.of_nat (length (Bincode.field2 v)) < 2 ^ 64 ->
     Bincode.utf8_valid (Bincode.field2 v) = true ->
     Bincode.run Bincode.test_struct_reader (Bincode.serialize_test_struct v) = Ok (v, []) /\
     (forall k, (k < length (Bincode.serialize_test_struct v))%nat ->
        Codec.decode Bincode.deserialize_test_struct (take k (Bincode.serialize_test_struct v))
        = (Err (mkIoError IoOther "deserialize failed"), take k (Bincode.serialize_test_struct v))) /\
     (forall rest,
        Codec.decode Bincode.deserialize_test_struct (Bincode.serialize_test_struct v ++ rest)
        = (Ok (Some v), Bincode.serialize_test_struct v ++ rest))).
Proof.
  split; [|split; [|split]].
  - intros T de src. split; [reflexivity|].
    unfold Codec.decode. cbn [fst]. destruct (de src); discriminate.
  - intros T r e v He. split.
    + intros k Hk. unfold Codec.decode, Bincode.deserialize_with.
      rewrite (run_prefix r e v He k Hk). reflexivity.
    + intros rest. unfold Codec.decode, Bincode.deserialize_with.
      rewrite (run_app r e rest v He). reflexivity.
  - exact deserialize_test_struct_reader.
  - intros v H1 H2 Hu. split; [|split].
    + rewrite <- (app_nil_r (Bincode.serialize_test_struct v)).
      apply test_struct_reader_encoding; assumption.
    + intros k Hk. unfold Codec.decode.
      rewrite deserialize_test_struct_prefix by assumption. reflexivity.
    + intros rest. unfold Codec.decode.
      rewrite deserialize_test_struct_roundtrip by assumption. reflexivity.
Qed.

(** C4 fails: the first three bytes of the tests' item give an error, not
    [Ok(None)]. *)
Lemma codec_decode_prefix_not_pending :
  fst (Codec.decode Bincode.deserialize_test_struct
         (take 3 (Bincode.serialize_test_struct (Bincode.mkTestStruct 42 [104; 101; 108; 108; 111]))))
  <> Ok None.
Proof. vm_compute. discriminate. Qed.

(** ** The self-contained bincode wrapper *)

Lemma read_exact_app (n : nat) (a rest : list Z) :
  n = length a -> read_exact n (a ++ rest) = (Ok a, rest).
Proof.
  intros ->. unfold read_exact. rewrite length_app.
  destruct (Nat.leb_spec (length a) (length a + length rest)) as [_|H]; [|lia].
  rewrite take_app_length, drop_app_length. reflexivity.
Qed.

Lemma read_exact_short (n : nat) (stream : list Z) :
  (length stream < n)%nat ->
  read_exact n stream = (Err (mkIoError IoUnexpectedEof "failed to fill whole buffer"), []).
Proof. intros H. unfold read_exact. destruct (Nat.leb_spec n (length stream)); [lia | reflexivity]. Qed.

Lemma async_read_exact_app (n : nat) (a rest : list Z) :
  n = length a -> async_read_exact n (a ++ rest) = (Ok a, rest).
Proof.
  intros ->. unfold async_read_exact. rewrite length_app.
  destruct (Nat.leb_spec (length a) (length a + length rest)) as [_|H]; [|lia].
  rewrite take_app_length, drop_app_length. reflexivity.
Qed.

Lemma async_read_exact_short (n : nat) (stream : list Z) :
  (length stream < n)%nat ->
  async_read_exact n stream = (Err (mkIoError IoUnexpectedEof "early eof"), []).
Proof. intros H. unfold async_read_exact. destruct (Nat.leb_spec n (length stream)); [lia | reflexivity]. Qed.

(** The two [read_exact]s read the same bytes and differ only in the
    message of a short read. *)
Lemma read_exact_cases (n : nat) (stream : list Z) :
  (exists a r, read_exact n stream = (Ok a, r) /\ async_read_exact n stream = (Ok a, r)) \/
  (read_exact n stream = (Err (mkIoError IoUnexpectedEof "failed to fill whole buffer"), []) /\
   async_read_exact n stream = (Err (mkIoError IoUnexpectedEof "early eof"), [])).
Proof.
  unfold read_exact, async_read_exact.
  destruct (n <=? length stream)%nat; [left; eexists _, _; split; reflexivity | right; split; reflexivity].
Qed.

Lemma deserialize_u32_le (x : Z) :
  Bincode.deserialize_u32 (Bincode.le_bytes 4 x) = Ok (x mod 2 ^ 32).
Proof.
  unfold Bincode.deserialize_u32. rewrite <- (app_nil_r (Bincode.le_bytes 4 x)).
  rewrite read_u32_app by apply length_le_bytes.
  cbv beta iota. rewrite le_value_le_bytes. reflexivity.
Qed.

Section BincodeWrapperFacts.
Import BincodeWrapper.
Context {T : Type} (serialize : T -> option (list Z))
  (deserialize : list Z -> result T Bincode.ErrorKind).

Lemma bincode_new_ok (c : T) (cb : list Z) :
  serialize c = Some cb ->
  new serialize c
  = Ok (mkWrapper (Some (Bincode.le_bytes 4 (Z.of_nat (length cb) mod 2 ^ 32)))
          (Some cb) None None).
Proof.
  intros H. unfold new. rewrite H. cbv zeta. unfold Bincode.serialize_u32.
  rewrite length_le_bytes. reflexivity.
Qed.

Lemma bincode_receive_frame (w : BincodeContractWrapper T) (cb rest : list Z) (v : T) :
  Z.of_nat (length cb) < 2 ^ 32 ->
  deserialize cb = Ok v ->
  blocking_receive deserialize w
    (Bincode.le_bytes 4 (Z.of_nat (length cb) mod 2 ^ 32) ++ cb ++ rest)
  = (Ok tt, mkWrapper (header_bytes w) (contract_bytes w)
              (Some (Z.of_nat (length cb))) (Some v), rest).
Proof.
  intros Hlt Hde. unfold blocking_receive.
  rewrite read_exact_app by (rewrite length_le_bytes; reflexivity).
  rewrite deserialize_u32_le.
  rewrite Zmod_mod, (Z.mod_small (Z.of_nat (length cb))) by lia.
  rewrite Nat2Z.id, read_exact_app by reflexivity.
  rewrite Hde. reflexivity.
Qed.

(** Below the 4 GiB limit of the [u32] header, frames of two values sent
    back to back are received as those two values, in order. *)
Lemma bincode_frames_in_order_below_limit (v1 v2 : T) (b1 b2 : list Z) :
  (forall v b, serialize v = Some b -> deserialize b = Ok v) ->
  serialize v1 = Some b1 -> serialize v2 = Some b2 ->
  Z.of_nat (length b1) < 2 ^ 32 -> Z.of_nat (length b2) < 2 ^ 32 ->
  exists w1 w2 s1 s2 r1 r2 s3,
    new serialize v1 = Ok w1 /\ new serialize v2 = Ok w2 /\
    blocking_send w1 [] = Returned (Ok tt, s1) /\
    blocking_send w2 s1 = Returned (Ok tt, s2) /\
    blocking_receive deserialize empty s2 = (Ok tt, r1, s3) /\ contract r1 = Some v1 /\
    blocking_receive deserialize empty s3 = (Ok tt, r2, []) /\ contract r2 = Some v2.
Proof.
  intros Hrt H1 H2 L1 L2.
  set (h1 := Bincode.le_bytes 4 (Z.of_nat (length b1) mod 2 ^ 32)).
  set (h2 := Bincode.le_bytes 4 (Z.of_nat (length b2) mod 2 ^ 32)).
  eexists _, _, (h1 ++ b1), (h1 ++ b1 ++ h2 ++ b2), _, _, (h2 ++ b2).
  split; [apply bincode_new_ok, H1|]. split; [apply bincode_new_ok, H2|].
  split; [reflexivity|]. split; [unfold blocking_send; cbn [header_bytes contract_bytes]; rewrite <- app_assoc; reflexivity|].
  split; [apply bincode_receive_frame; [exact L1 | apply Hrt, H1]|]. split; [reflexivity|].
  split.
  - pose proof (bincode_receive_frame empty b2 [] v2 L2 (Hrt _ _ H2)) as R.
    rewrite app_nil_r in R. exact R.
  - reflexivity.
Qed.

End BincodeWrapperFacts.

Lemma oversized_payload_length :
  Z.of_nat (length oversized_payload) = 2 ^ 32 - 8.
Proof. unfold oversized_payload. rewrite repeat_length, Z2Nat.id by lia. reflexivity. Qed.

Lemma bincode_truncated_frame (v1 tail : list Z) :
  Z.of_nat (length v1) = 2 ^ 32 - 8 ->
  BincodeWrapper.new Bincode.serialize_vec_u8 v1
  = Ok (BincodeWrapper.mkWrapper (Some [0; 0; 0; 0]) (Some (Bincode.serialize_string v1)) None None) /\
  fst (fst (BincodeWrapper.blocking_receive Bincode.deserialize_vec_u8 BincodeWrapper.empty
             ([0; 0; 0; 0] ++ Bincode.serialize_string v1 ++ tail)))
  = Err (BincodeWrapper.bincode_to_nano Bincode.eof).
Proof.
  intros Hlen. split.
  - rewrite (bincode_new_ok Bincode.serialize_vec_u8 v1 (Bincode.serialize_string v1) eq_refl).
    unfold Bincode.serialize_string at 1.
    rewrite length_app, length_le_bytes, Nat2Z.inj_add, Hlen.
    reflexivity.
  - unfold BincodeWrapper.blocking_receive.
    rewrite (read_exact_app 4 [0; 0; 0; 0]) by reflexivity.
    reflexivity.
Qed.

(** C5 fails by the [as u32] truncation of [new]: a [Vec<u8>] contract of
    [2^32 - 8] bytes is framed with the header [0], so the first receive
    reads an empty payload and fails instead of yielding the first value. *)
Theorem bincode_frames_oversized_payload :
  exists w1 w2 s1 s2,
    BincodeWrapper.new Bincode.serialize_vec_u8 oversized_payload = Ok w1 /\
    BincodeWrapper.new Bincode.serialize_vec_u8 [7] = Ok w2 /\
    BincodeWrapper.header_bytes w1 = Some [0; 0; 0; 0] /\
    BincodeWrapper.blocking_send w1 [] = Returned (Ok tt, s1) /\
    BincodeWrapper.blocking_send w2 s1 = Returned (Ok tt, s2) /\
    fst (fst (BincodeWrapper.blocking_receive Bincode.deserialize_vec_u8 BincodeWrapper.empty s2))
    = Err (BincodeWrapper.bincode_to_nano Bincode.eof).
Proof.
  destruct (bincode_truncated_frame oversized_payload
              (Bincode.le_bytes 4 9 ++ Bincode.serialize_string [7])
              oversized_payload_length) as [Hnew Hrecv].
  eexists _, _, ([0; 0; 0; 0] ++ Bincode.serialize_string oversized_payload),
    ([0; 0; 0; 0] ++ Bincode.serialize_string oversized_payload ++
     Bincode.le_bytes 4 9 ++ Bincode.serialize_string [7]).
  split; [exact Hnew|].
  split; [reflexivity|].
  split; [reflexivity|].
  split; [unfold BincodeWrapper.blocking_send;
          cbn [BincodeWrapper.header_bytes BincodeWrapper.contract_bytes];
          rewrite app_nil_l; reflexivity|].
  split; [unfold BincodeWrapper.blocking_send; cbn [BincodeWrapper.header_bytes BincodeWrapper.contract_bytes];
          rewrite <- !app_assoc; reflexivity|].
  exact Hrecv.
Qed.

(** C10: [blocking_send] and [async_send] panic (in [Option::unwrap]) on a
    wrapper made by [empty], and still on one filled by a receive; on a
    wrapper made by [new] they return. *)
Theorem empty_wrapper_send_panics {T : Type} (serialize : T -> option (list Z)) :
  (forall out,
     BincodeWrapper.blocking_send (@BincodeWrapper.empty T) out = Panicked unwrap_none_msg /\
     BincodeWrapper.async_send (@BincodeWrapper.empty T) out = Panicked unwrap_none_msg) /\
  (forall deserialize stream,
     BincodeWrapper.header_bytes
       (snd (fst (BincodeWrapper.blocking_receive deserialize (@BincodeWrapper.empty T) stream)))
     = None) /\
  (forall c w, BincodeWrapper.new serialize c = Ok w ->
     forall out, exists r,
       BincodeWrapper.blocking_send w out = Returned r /\
       BincodeWrapper.async_send w out = Returned r).
Proof.
  split; [|split].
  - intros out. split; reflexivity.
  - intros deserialize stream. unfold BincodeWrapper.blocking_receive.
    destruct (read_exact 4 stream) as [[hb|e] s1].
    + destruct (Bincode.deserialize_u32 hb) as [h|e]; [|reflexivity].
      destruct (read_exact (Z.to_nat h) s1) as [[cb|e] s2]; [|reflexivity].
      destruct (deserialize cb); reflexivity.
    + reflexivity.
  - intros c w Hnew out. unfold BincodeWrapper.new in Hnew.
    destruct (serialize c) as [cb|]; [|discriminate].
    cbv zeta in Hnew. unfold Bincode.serialize_u32 in Hnew. rewrite length_le_bytes in Hnew.
    cbn in Hnew. injection Hnew as <-.
    eexists. split; reflexivity.
Qed.

(** ** The variable-width-header bitcode wrapper *)
Section BitcodeWrapperFacts.
Import BitcodeWrapper.
Context {T : Type}.
Context (encode_contract : T -> list Z) (decode_contract : list Z -> result T string).
Context (encode_u32 : Z -> list Z) (decode_u32 : list Z -> result Z string).
Context (decode_u8 : list Z -> result Z string).
(** An encoded [u32] is shorter than [256] bytes, so that its length fits
    the one-byte pre-header. *)
Hypothesis encode_u32_short : forall x, (length (encode_u32 x) < 256)%nat.

Lemma bitcode_receive_exact (w : BitcodeContractWrapper T) (b : Z) (hb cb rest : list Z) (ph n : Z) :
  decode_u8 [b] = Ok ph -> Z.to_nat ph = length hb ->
  decode_u32 hb = Ok n -> Z.to_nat n = length cb ->
  blocking_receive decode_contract decode_u32 decode_u8 w ([b] ++ hb ++ cb ++ rest) =
  match decode_contract cb with
  | Ok c => (Ok tt, mkWrapper (pre_header_bytes w) (header_bytes w) (contract_bytes w)
                      (Some ph) (Some n) (Some c), rest)
  | Err m => (Err (decode_error m), mkWrapper (pre_header_bytes w) (header_bytes w)
                      (contract_bytes w) (Some ph) (Some n) (contract w), rest)
  end.
Proof.
  intros H8 Hph H32 Hn. unfold blocking_receive.
  rewrite read_exact_app by reflexivity. rewrite H8.
  rewrite read_exact_app by exact Hph. rewrite H32.
  rewrite read_exact_app by exact Hn.
  destruct (decode_contract cb); reflexivity.
Qed.

(** C6: [new] yields the frame [[len(h)] ++ h ++ payload] with [h] the
    encoded [u32] payload length, and both sends write exactly it; a
    receive reads one pre-header byte, then that many header bytes, then
    as many payload bytes as the header says, leaving the rest of the
    stream; a short read at any of the three steps is an error (["early
    eof"] from tokio in [async_receive], which otherwise agrees with
    [blocking_receive] on every stream); and a
    frame of [new] is received as its value when the payload is shorter
    than [2^32] bytes and bitcode round-trips. *)
Theorem bitcode_framing :
  (forall v : T,
     let cb := encode_contract v in
     let hb := encode_u32 (Z.of_nat (length cb) mod 2 ^ 32) in
     exists w, new encode_contract encode_u32 v = Ok w /\
       pre_header_bytes w = Some [Z.of_nat (length hb)] /\
       header_bytes w = Some hb /\ contract_bytes w = Some cb /\
       forall out,
         blocking_send w out = Returned (Ok tt, out ++ [Z.of_nat (length hb)] ++ hb ++ cb) /\
         async_send w out = Returned (Ok tt, out ++ [Z.of_nat (length hb)] ++ hb ++ cb)) /\
  (forall w stream,
     async_receive decode_contract decode_u32 decode_u8 w stream =
     blocking_receive decode_contract decode_u32 decode_u8 w stream \/
     exists w' rest,
       blocking_receive decode_contract decode_u32 decode_u8 w stream
       = (Err BitcodeWrapper.eof_error, w', rest) /\
       async_receive decode_contract decode_u32 decode_u8 w stream
       = (Err BitcodeWrapper.async_eof_error, w', rest)) /\
  (forall w b hb cb rest ph n,
     decode_u8 [b] = Ok ph -> Z.to_nat ph = length hb ->
     decode_u32 hb = Ok n -> Z.to_nat n = length cb ->
     snd (blocking_receive decode_contract decode_u32 decode_u8 w ([b] ++ hb ++ cb ++ rest)) = rest /\
     fst (fst (blocking_receive decode_contract decode_u32 decode_u8 w ([b] ++ hb ++ cb ++ rest))) =
       match decode_contract cb with Ok _ => Ok tt | Err m => Err (decode_error m) end) /\
  (forall w,
     fst (fst (blocking_receive decode_contract decode_u32 decode_u8 w [])) = Err BitcodeWrapper.eof_error) /\
  (forall w b hs ph,
     decode_u8 [b] = Ok ph -> (length hs < Z.to_nat ph)%nat ->
     fst (fst (blocking_receive decode_contract decode_u32 decode_u8 w ([b] ++ hs))) = Err BitcodeWrapper.eof_error) /\
  (forall w b hb cs ph n,
     decode_u8 [b] = Ok ph -> Z.to_nat ph = length hb ->
     decode_u32 hb = Ok n -> (length cs < Z.to_nat n)%nat ->
     fst (fst (blocking_receive decode_contract decode_u32 decode_u8 w ([b] ++ hb ++ cs))) = Err BitcodeWrapper.eof_error) /\
  ((forall b, 0 <= b < 256 -> decode_u8 [b] = Ok b) ->
   (forall x, 0 <= x < 2 ^ 32 -> decode_u32 (encode_u32 x) = Ok x) ->
   (forall v, decode_contract (encode_contract v) = Ok v) ->
   forall v w rest, new encode_contract encode_u32 v = Ok w ->
   (Z.of_nat (length (encode_contract v)) < 2 ^ 32) ->
   exists bytes, blocking_send w [] = Returned (Ok tt, bytes) /\
     fst (fst (blocking_receive decode_contract decode_u32 decode_u8 empty (bytes ++ rest))) = Ok tt /\
     contract (snd (fst (blocking_receive decode_contract decode_u32 decode_u8 empty (bytes ++ rest))))
       = Some v /\
     snd (blocking_receive decode_contract decode_u32 decode_u8 empty (bytes ++ rest)) = rest).
Proof.
  split; [|split; [|split; [|split; [|split; [|split]]]]].
  - intros v cb hb. eexists. split; [reflexivity|].
    cbn [pre_header_bytes header_bytes contract_bytes].
    pose proof (encode_u32_short (Z.of_nat (length cb) mod 2 ^ 32)) as Hs. fold hb in Hs.
    rewrite (Z.mod_small (Z.of_nat (length hb))) by lia.
    split; [reflexivity|]. split; [reflexivity|]. split; [reflexivity|].
    intros out. split; reflexivity.
  - intros w stream. unfold async_receive, blocking_receive.
    destruct (read_exact_cases 1 stream) as [(a & s1 & E & A) | (E & A)]; rewrite E, A;
      [|right; eexists _, _; split; reflexivity].
    destruct (decode_u8 a) as [ph|m]; [|left; reflexivity].
    destruct (read_exact_cases (Z.to_nat ph) s1) as [(a2 & s2 & E2 & A2) | (E2 & A2)];
      rewrite E2, A2; [|right; eexists _, _; split; reflexivity].
    destruct (decode_u32 a2) as [hdr|m]; [|left; reflexivity].
    destruct (read_exact_cases (Z.to_nat hdr) s2) as [(a3 & s3 & E3 & A3) | (E3 & A3)];
      rewrite E3, A3; [left; reflexivity | right; eexists _, _; split; reflexivity].
  - intros w b hb cb rest ph n H8 Hph H32 Hn.
    rewrite (bitcode_receive_exact w b hb cb rest ph n H8 Hph H32 Hn).
    destruct (decode_contract cb); split; reflexivity.
  - intros w. reflexivity.
  - intros w b hs ph H8 Hs. unfold blocking_receive.
    rewrite read_exact_app by reflexivity. rewrite H8.
    rewrite read_exact_short by exact Hs. reflexivity.
  - intros w b hb cs ph n H8 Hph H32 Hs. unfold blocking_receive.
    rewrite read_exact_app by reflexivity. rewrite H8.
    rewrite <- (app_nil_r hb).
    rewrite read_exact_app by (rewrite app_nil_r; exact Hph). rewrite app_nil_r, H32.
    rewrite read_exact_short by exact Hs. reflexivity.
  - intros H8 H32 Hc v w rest Hnew Hlt. unfold new in Hnew. injection Hnew as <-.
    set (cb := encode_contract v) in *.
    set (hb := encode_u32 (Z.of_nat (length cb) mod 2 ^ 32)).
    pose proof (encode_u32_short (Z.of_nat (length cb) mod 2 ^ 32)) as Hs. fold hb in Hs.
    eexists. split; [reflexivity|].
    rewrite !app_nil_l, <- !app_assoc.
    assert (Hlen : Z.of_nat (length cb) mod 2 ^ 32 = Z.of_nat (length cb)).
    { apply Z.mod_small. lia. }
    rewrite (bitcode_receive_exact empty (Z.of_nat (length hb) mod 256) hb cb rest
               (Z.of_nat (length hb)) (Z.of_nat (length cb))).
    + subst cb. rewrite Hc. split; [reflexivity|]. split; reflexivity.
    + rewrite Z.mod_small by lia. apply H8. lia.
    + lia.
    + unfold hb. rewrite Hlen. apply H32. lia.
    + lia.
Qed.
End BitcodeWrapperFacts.

(** ** The event bus *)

(** C8: publishing to a name with no registry entry returns [()], spawns
    no subscriber call and leaves the registry unchanged; its only effect
    is the line it prints. *)
Theorem publish_event_no_subscribers {EventFunction : Type}
    (name : string) (data : list Z) (st : EventBus.BusState EventFunction) :
  EventBus.registry st !! name = None ->
  EventBus.publish_event name data st =
    (tt, EventBus.mkBusState (EventBus.registry st) (EventBus.spawned st)
           (EventBus.stdout st ++ ["No subscribers for event: " +:+ name])) /\
  EventBus.registry (snd (EventBus.publish_event name data st)) = EventBus.registry st /\
  EventBus.spawned (snd (EventBus.publish_event name data st)) = EventBus.spawned st.
Proof.
  intros Hnone. unfold EventBus.publish_event, EventBus.get_from_hashmap.
  rewrite Hnone. split; [|split]; reflexivity.
Qed.

(** ** The wasm host call *)

Section GuestBridgeFacts.
Import GuestBridge.

Lemma lookup_mem_write_out (bs : list Z) (addr k : Z) (m : gmap Z Z) :
  k < addr \/ addr + Z.of_nat (length bs) <= k -> mem_write addr bs m !! k = m !! k.
Proof.
  revert addr m. induction bs as [|b r IH]; intros addr m Hk; [reflexivity|].
  cbn [mem_write]. cbn [length] in Hk. rewrite IH by lia.
  apply lookup_insert_ne. lia.
Qed.

Lemma mem_read_S (addr : Z) (n : nat) (m : gmap Z Z) :
  mem_read addr (S n) m = default 0 (m !! addr) :: mem_read (addr + 1) n m.
Proof.
  unfold mem_read. cbn [seq map]. rewrite Z.add_0_r. f_equal.
  rewrite <- seq_shift, map_map. apply map_ext. intros i.
  replace (addr + Z.of_nat (S i)) with (addr + 1 + Z.of_nat i) by lia. reflexivity.
Qed.

Lemma mem_read_write_same (bs : list Z) (addr : Z) (m : gmap Z Z) :
  mem_read addr (length bs) (mem_write addr bs m) = bs.
Proof.
  revert addr m. induction bs as [|b r IH]; intros addr m; [reflexivity|].
  cbn [length mem_write]. rewrite mem_read_S, IH.
  rewrite lookup_mem_write_out by lia. rewrite lookup_insert_eq. reflexivity.
Qed.

Lemma mem_read_write_other (a : Z) (n : nat) (b : Z) (bs : list Z) (m : gmap Z Z) :
  a + Z.of_nat n <= b \/ b + Z.of_nat (length bs) <= a ->
  mem_read a n (mem_write b bs m) = mem_read a n m.
Proof.
  intros H. unfold mem_read. apply map_ext_in. intros i Hi.
  apply in_seq in Hi. rewrite lookup_mem_write_out by lia. reflexivity.
Qed.

Lemma granule_bound (x : Z) : 0 <= x -> x <= (Z.max x 1 + 7) / 8 * 8 <= x + 8.
Proof. intros H. Z.div_mod_to_equations. lia. Qed.

Lemma take_le_bytes_app (n : nat) (x : Z) (rest : list Z) :
  take n (Bincode.le_bytes n x ++ rest) = Bincode.le_bytes n x.
Proof. rewrite <- (length_le_bytes n x) at 1. apply take_app_length. Qed.

Lemma drop_le_bytes_app (n : nat) (x : Z) (rest : list Z) :
  drop n (Bincode.le_bytes n x ++ rest) = rest.
Proof. rewrite <- (length_le_bytes n x) at 1. apply drop_app_length. Qed.

(** With a non-empty handler result and a heap far from [2^31], one host
    call frees exactly the three blocks it allocated. *)
Lemma host_call_balanced {P : Type} (variants : list string)
    (ser : string -> P -> option (list Z)) (de : string -> list Z -> option P)
    (ser_error : NanoServiceError -> option (list Z))
    (exports : string -> option (list Z -> option (list Z)))
    (c c' : Contract.Envelope P) (g : Guest) (serialized out : list Z) f :
  Contract.to_contract_bytes ser ser_error c = Ok serialized ->
  exports (Contract.to_string_ref c) = Some f ->
  f serialized = Some out ->
  out <> [] ->
  Contract.from_contract_bytes variants de out (Contract.to_string_ref c) = Ok c' ->
  0 <= heap_top g ->
  heap_top g + Z.of_nat (length serialized) + Z.of_nat (length out) + 32 < 2 ^ 31 ->
  exists g' l, host_call variants ser de ser_error exports c g = Some (c', g') /\
    length l = 3%nat /\ allocs g' = allocs g ++ l /\ frees g' = frees g ++ l.
Proof.
  intros Hser Hexp Hf Hne Hde H0 Hb.
  unfold host_call. rewrite Hser.
  set (ls := Z.of_nat (length serialized)).
  assert (Hls : wrap32 ls = ls) by (apply Z.mod_small; lia).
  rewrite Hls.
  unfold ns_malloc at 1, alloc at 1. cbv zeta. rewrite Hexp.
  unfold entry_point. cbn [memory heap_top allocs frees write].
  subst ls. rewrite Nat2Z.id, mem_read_write_same, Hf.
  set (h1 := heap_top g + (Z.max (Z.of_nat (length serialized)) 1 + 7) / 8 * 8).
  assert (Hlo : (Z.of_nat (length out) =? 0) = false).
  { destruct out; [congruence | reflexivity]. }
  unfold vec_with_capacity. rewrite Hlo. unfold alloc. cbn [memory heap_top allocs frees write].
  set (h2 := h1 + (Z.max (Z.of_nat (length out)) 1 + 7) / 8 * 8).
  pose proof (granule_bound (Z.of_nat (length serialized)) ltac:(lia)).
  pose proof (granule_bound (Z.of_nat (length out)) ltac:(lia)).
  assert (Hw1 : wrap32 h1 = h1) by (apply Z.mod_small; lia).
  assert (Hw2 : wrap32 h2 = h2) by (apply Z.mod_small; lia).
  assert (Hw3 : wrap32 (Z.of_nat (length out)) = Z.of_nat (length out)) by (apply Z.mod_small; lia).
  rewrite Hw1, Hw2, Hw3.
  set (desc := Bincode.le_bytes 4 h1 ++ Bincode.le_bytes 4 (Z.of_nat (length out))).
  set (M := mem_write h1 out (mem_write (heap_top g) serialized (memory g))).
  assert (Hd : mem_read h2 8 (mem_write h2 desc M) = desc).
  { pose proof (mem_read_write_same desc h2 M) as Hm.
    unfold desc in Hm at 1. rewrite length_app, !length_le_bytes in Hm. exact Hm. }
  rewrite Hd. unfold desc. rewrite take_le_bytes_app, drop_le_bytes_app.
  rewrite !le_value_u32 by lia.
  rewrite (proj2 (Z.leb_gt _ _)) by lia.
  rewrite Nat2Z.id. fold desc. rewrite mem_read_write_other.
  2: { left. lia. }
  unfold M. rewrite mem_read_write_same, Hde.
  eexists _, [(heap_top g, Z.of_nat (length serialized)); (h1, Z.of_nat (length out)); (h2, 8)].
  split; [reflexivity|]. split; [reflexivity|].
  cbn [ns_free write allocs frees]. rewrite <- !app_assoc. split; reflexivity.
Qed.
End GuestBridgeFacts.

(** C9 fails: for a contract whose handler result serializes to no bytes,
    the guest leaks a [Vec] that never allocated (its pointer is the
    dangling [1]), so the host's second [ns_free] releases a block
    [(1, 0)] the allocator never handed out: two allocations, three
    frees. *)
Theorem host_call_zero_length_result_unbalanced :
  exists c g,
    GuestBridge.host_call ["ContractTwo"] Contract.unit_ser Contract.unit_de
      (fun _ => Some []) GuestBridge.unit_exports
      (Contract.ContractVariant "ContractTwo" tt) GuestBridge.fresh_guest = Some (c, g) /\
    c = Contract.ContractVariant "ContractTwo" tt /\
    GuestBridge.allocs g = [(1024, 0); (1032, 8)] /\
    GuestBridge.frees g = [(1024, 0); (1, 0); (1032, 8)] /\
    (1, 0) ∉ GuestBridge.allocs g.
Proof.
  eexists _, _. split; [vm_compute; reflexivity|].
  split; [reflexivity|]. split; [reflexivity|]. split; [reflexivity|].
  vm_compute. intros Hin.
  repeat (apply elem_of_cons in Hin as [Hin|Hin]; [discriminate|]).
  apply not_elem_of_nil in Hin. exact Hin.
Qed.

(** * Witnesses *)

Lemma codec_decode_amended_witness :
  Bincode.run Bincode.test_struct_reader
    (Bincode.serialize_test_struct (Bincode.mkTestStruct 42 [104; 101; 108; 108; 111]))
  = Ok (Bincode.mkTestStruct 42 [104; 101; 108; 108; 111], []) /\
  Codec.decode (Bincode.deserialize_with Bincode.test_struct_reader)
    (take 3 (Bincode.serialize_test_struct (Bincode.mkTestStruct 42 [104; 101; 108; 108; 111])))
  = (Err (mkIoError IoOther "deserialize failed"),
     take 3 (Bincode.serialize_test_struct (Bincode.mkTestStruct 42 [104; 101; 108; 108; 111]))) /\
  Codec.decode (Bincode.deserialize_with Bincode.test_struct_reader)
    (Bincode.serialize_test_struct (Bincode.mkTestStruct 42 [104; 101; 108; 108; 111]) ++ [9])
  = (Ok (Some (Bincode.mkTestStruct 42 [104; 101; 108; 108; 111])),
     Bincode.serialize_test_struct (Bincode.mkTestStruct 42 [104; 101; 108; 108; 111]) ++ [9]).
Proof.
  assert (He : Bincode.run Bincode.test_struct_reader
                 (Bincode.serialize_test_struct (Bincode.mkTestStruct 42 [104; 101; 108; 108; 111]))
               = Ok (Bincode.mkTestStruct 42 [104; 101; 108; 108; 111], [])) by reflexivity.
  destruct (proj1 (proj2 codec_decode_amended) Bincode.TestStruct Bincode.test_struct_reader
              _ _ He) as [Hpre Hfull].
  split; [exact He|]. split.
  - apply Hpre. vm_compute. lia.
  - apply Hfull.
Defined.

Lemma bitcode_framing_witness :
  exists bytes,
    BitcodeWrapper.blocking_send
      (@BitcodeWrapper.mkWrapper bool (Some [4]) (Some [1; 0; 0; 0]) (Some [1]) None None None) []
    = Returned (Ok tt, bytes) /\
    fst (fst (BitcodeWrapper.blocking_receive bool_decode u32_decode u8_decode
                BitcodeWrapper.empty (bytes ++ [7]))) = Ok tt /\
    BitcodeWrapper.contract (snd (fst (BitcodeWrapper.blocking_receive bool_decode u32_decode
                u8_decode BitcodeWrapper.empty (bytes ++ [7])))) = Some true /\
    snd (BitcodeWrapper.blocking_receive bool_decode u32_decode u8_decode
           BitcodeWrapper.empty (bytes ++ [7])) = [7].
Proof.
  destruct (bitcode_framing bool_encode bool_decode u32_encode u32_decode u8_decode
              ltac:(intros x; unfold u32_encode; rewrite length_le_bytes; lia))
    as (_ & _ & _ & _ & _ & _ & Hrt).
  apply (Hrt ltac:(intros b Hb; reflexivity)
             ltac:(intros x Hx; unfold u32_decode, u32_encode; rewrite length_le_bytes;
                   cbn [Nat.eqb]; rewrite le_value_u32 by exact Hx; reflexivity)
             ltac:(intros []; reflexivity)
             true).
  - reflexivity.
  - cbn. lia.
Defined.

Lemma publish_event_no_subscribers_witness :
  EventBus.publish_event "orders" [1; 2]
    (EventBus.mkBusState (∅ : gmap string (list nat)) [] [])
  = (tt, EventBus.mkBusState ∅ [] ["No subscribers for event: orders"]).
Proof.
  apply (publish_event_no_subscribers "orders" [1; 2]
           (EventBus.mkBusState (∅ : gmap string (list nat)) [] [])).
  apply lookup_empty.
Defined.

Lemma empty_wrapper_send_panics_witness :
  exists r,
    BincodeWrapper.blocking_send
      (BincodeWrapper.mkWrapper (Some [1; 0; 0; 0]) (Some [5]) None (@None Z)) [] = Returned r /\
    BincodeWrapper.async_send
      (BincodeWrapper.mkWrapper (Some [1; 0; 0; 0]) (Some [5]) None (@None Z)) [] = Returned r.
Proof.
  apply (proj2 (proj2 (empty_wrapper_send_panics (fun x : Z => Some [x]))) 5).
  reflexivity.
Defined.

(** * Further properties of the generated enum, the wrappers, the bus and
    the bridge *)

(** ** [internal_index] and [from_contract_bytes] *)
Section ContractMoreFacts.
Import Contract.
Context {P : Type} (variants : list string) (de : string -> list Z -> option P).

Lemma internal_index_go_in (vs : list string) (k : Z) (n : string) (p : P) :
  n ∈ vs ->
  exists i, nth_error vs i = Some n /\
    (forall j, (j < i)%nat -> nth_error vs j <> Some n) /\
    internal_index_go vs k (ContractVariant n p) = k + 1 + Z.of_nat i.
Proof.
  revert k. induction vs as [|v vs IH]; intros k Hin.
  - apply not_elem_of_nil in Hin as [].
  - cbn [internal_index_go]. destruct (String.eqb_spec n v) as [->|Hne].
    + exists 0%nat. split; [reflexivity|]. split; [intros j Hj; lia|]. lia.
    + apply elem_of_cons in Hin as [Heq|Hin]; [contradiction|].
      destruct (IH (k + 1) Hin) as (i & Hi & Hfirst & Hv).
      exists (S i). split; [exact Hi|]. split.
      * intros [|j] Hj; cbn.
        -- intros E. injection E as E. apply Hne. symmetry. exact E.
        -- apply Hfirst. lia.
      * rewrite Hv. lia.
Qed.

Lemma internal_index_go_notin (vs : list string) (k : Z) (n : string) (p : P) :
  n ∉ vs -> internal_index_go vs k (ContractVariant n p) = 0.
Proof.
  revert k. induction vs as [|v vs IH]; intros k Hn; [reflexivity|].
  cbn [internal_index_go]. destruct (String.eqb_spec n v) as [->|_].
  - exfalso. apply Hn. apply elem_of_cons. left. reflexivity.
  - apply IH. intros Hin. apply Hn. apply elem_of_cons. right. exact Hin.
Qed.

Lemma internal_index_go_error (vs : list string) (k : Z) (e : NanoServiceError) :
  internal_index_go vs k (@ErrorVariant P e) = 0.
Proof. revert k. induction vs as [|v vs IH]; intros k; [reflexivity | apply IH]. Qed.

(** [internal_index] numbers the declared variants from [1] in
    declaration order (a name's first position), gives [0] to the
    [NanoServiceError] variant and to undeclared names, and so tells the
    declared variants apart. *)
Theorem internal_index_positions :
  (forall n (p : P), n ∈ variants ->
     exists i, nth_error variants i = Some n /\
       (forall j, (j < i)%nat -> nth_error variants j <> Some n) /\
       internal_index variants (ContractVariant n p) = Z.of_nat i + 1) /\
  (forall n (p : P), n ∉ variants -> internal_index variants (ContractVariant n p) = 0) /\
  (forall e, internal_index variants (@ErrorVariant P e) = 0) /\
  (forall n m (p q : P), n ∈ variants -> m ∈ variants ->
     internal_index variants (ContractVariant n p) = internal_index variants (ContractVariant m q) ->
     n = m).
Proof.
  split; [|split; [|split]].
  - intros n p Hin. destruct (internal_index_go_in variants 0 n p Hin) as (i & H1 & H2 & H3).
    exists i. split; [exact H1|]. split; [exact H2|]. unfold internal_index. rewrite H3. lia.
  - intros n p Hn. apply internal_index_go_notin. exact Hn.
  - intros e. apply internal_index_go_error.
  - intros n m p q Hn Hm Heq. unfold internal_index in Heq.
    destruct (internal_index_go_in variants 0 n p Hn) as (i & Hi & _ & Ei).
    destruct (internal_index_go_in variants 0 m q Hm) as (j & Hj & _ & Ej).
    rewrite Ei, Ej in Heq. assert (i = j) as <- by lia.
    rewrite Hi in Hj. injection Hj as E. exact E.
Qed.

Lemma from_contract_bytes_go_cases (vs : list string) (bytes : list Z) (r : string)
    (e : Envelope P) :
  from_contract_bytes_go de vs bytes r = Ok e <->
  exists pre v post p, vs = pre ++ v :: post /\ contract_tag v = r /\
    de v bytes = Some p /\ e = ContractVariant v p /\
    Forall (fun u => contract_tag u = r -> de u bytes = None) pre.
Proof.
  induction vs as [|u vs IH].
  - cbn [from_contract_bytes_go]. split; [discriminate|].
    intros (pre & v & post & p & Hvs & _). destruct pre; discriminate.
  - cbn [from_contract_bytes_go].
    destruct (String.eqb_spec r (contract_tag u)) as [Er|Er].
    + destruct (de u bytes) as [c|] eqn:Hde.
      * split.
        -- intros E. injection E as <-. exists [], u, vs, c.
           split; [reflexivity|]. split; [symmetry; exact Er|].
           split; [exact Hde|]. split; [reflexivity | constructor].
        -- intros (pre & v & post & p & Hvs & Ht & Hp & -> & Hf).
           destruct pre as [|u' pre].
           ++ cbn in Hvs. injection Hvs as -> _. rewrite Hde in Hp.
              injection Hp as ->. reflexivity.
           ++ cbn in Hvs. injection Hvs as -> _. inversion Hf as [|? ? Hu _]. subst.
              rewrite Hu in Hde by reflexivity. discriminate.
      * rewrite IH. split.
        -- intros (pre & v & post & p & Hvs & Ht & Hp & He & Hf).
           exists (u :: pre), v, post, p. rewrite Hvs.
           split; [reflexivity|]. split; [exact Ht|]. split; [exact Hp|].
           split; [exact He|]. constructor; [intros _; exact Hde | exact Hf].
        -- intros (pre & v & post & p & Hvs & Ht & Hp & He & Hf).
           destruct pre as [|u' pre].
           ++ cbn in Hvs. injection Hvs as -> _. rewrite Hde in Hp. discriminate.
           ++ cbn in Hvs. injection Hvs as -> Hvs. inversion Hf; subst.
              exists pre, v, post, p. auto.
    + rewrite IH. split.
      * intros (pre & v & post & p & Hvs & Ht & Hp & He & Hf).
        exists (u :: pre), v, post, p. rewrite Hvs.
        split; [reflexivity|]. split; [exact Ht|]. split; [exact Hp|].
        split; [exact He|]. constructor; [intros Ht'; exfalso; apply Er; symmetry; exact Ht' | exact Hf].
      * intros (pre & v & post & p & Hvs & Ht & Hp & He & Hf).
        destruct pre as [|u' pre].
        -- cbn in Hvs. injection Hvs as -> _. exfalso. apply Er. symmetry. exact Ht.
        -- cbn in Hvs. injection Hvs as -> Hvs. inversion Hf; subst.
           exists pre, v, post, p. auto.
Qed.

Lemma from_contract_bytes_go_err (vs : list string) (bytes : list Z) (r : string)
    (err : NanoServiceError) :
  from_contract_bytes_go de vs bytes r = Err err ->
  err = NanoServiceError_new "Failed to deserialize contract" BadRequest.
Proof.
  induction vs as [|u vs IH]; cbn [from_contract_bytes_go].
  - intros E. injection E as <-. reflexivity.
  - destruct (String.eqb r (contract_tag u)); [destruct (de u bytes)|]; [discriminate | exact IH | exact IH].
Qed.

(** [from_contract_bytes bytes r] succeeds exactly with the first declared
    variant, in declaration order, whose tag is [r] and whose decoder
    accepts [bytes]: a variant with the tag [r] but rejecting the bytes is
    skipped. It never yields the [NanoServiceError] variant, and it fails
    only with the [BadRequest] error ["Failed to deserialize contract"]. *)
Theorem from_contract_bytes_first_match (bytes : list Z) (r : string) :
  (forall e, from_contract_bytes variants de bytes r = Ok e <->
     exists pre v post p, variants = pre ++ v :: post /\ contract_tag v = r /\
       de v bytes = Some p /\ e = ContractVariant v p /\
       Forall (fun u => contract_tag u = r -> de u bytes = None) pre) /\
  (forall err, from_contract_bytes variants de bytes r = Err err ->
     err = NanoServiceError_new "Failed to deserialize contract" BadRequest).
Proof.
  split.
  - intros e. apply from_contract_bytes_go_cases.
  - intros err. apply from_contract_bytes_go_err.
Qed.
End ContractMoreFacts.

(** ** HTTP status of an error *)

(** [status_code] sends every [NanoServiceErrorStatus] to an HTTP error
    status (4xx or 5xx), and no two statuses to the same code. *)
Theorem status_code_http_errors :
  (forall s, 400 <= status_code s <= 599) /\
  (forall s t, status_code s = status_code t -> s = t).
Proof.
  split.
  - intros []; cbn; lia.
  - intros [] []; cbn; intros H; first [reflexivity | discriminate H].
Qed.

(** ** Subscribing and publishing *)
Section EventBusMoreFacts.
Import EventBus.
Context {EventFunction : Type}.

(** [insert_into_hashmap name f] appends [f] to the subscribers of [name]
    (starting from none), leaves every other name's subscribers as they
    were, and spawns and prints nothing. *)
Theorem insert_into_hashmap_appends (name : string) (f : EventFunction)
    (st : BusState EventFunction) :
  get_from_hashmap name (snd (insert_into_hashmap name f st))
    = Some (default [] (get_from_hashmap name st) ++ [f]) /\
  (forall other, other <> name ->
     get_from_hashmap other (snd (insert_into_hashmap name f st)) = get_from_hashmap other st) /\
  spawned (snd (insert_into_hashmap name f st)) = spawned st /\
  stdout (snd (insert_into_hashmap name f st)) = stdout st.
Proof.
  unfold insert_into_hashmap, get_from_hashmap. cbn [snd registry spawned stdout].
  split; [|split; [|split]].
  - apply lookup_insert_eq.
  - intros other Hne. apply lookup_insert_ne. intros E. apply Hne. symmetry. exact E.
  - reflexivity.
  - reflexivity.
Qed.

Lemma subscribe_all_state (name : string) (fs : list EventFunction) (st : BusState EventFunction) :
  let st' := fold_left (fun s f => snd (insert_into_hashmap name f s)) fs st in
  spawned st' = spawned st /\ stdout st' = stdout st /\
  (fs <> [] -> registry st' !! name = Some (default [] (registry st !! name) ++ fs)).
Proof.
  revert st. induction fs as [|f fs IH]; intros st; cbn [fold_left].
  - split; [reflexivity|]. split; [reflexivity|]. intros H. contradiction.
  - destruct (IH (snd (insert_into_hashmap name f st))) as (H1 & H2 & H3).
    unfold insert_into_hashmap, get_from_hashmap in *. cbn [snd registry spawned stdout] in *.
    split; [exact H1|]. split; [exact H2|]. intros _.
    destruct fs as [|f' fs'].
    + cbn [fold_left]. cbn [registry]. rewrite lookup_insert_eq. reflexivity.
    + rewrite H3 by discriminate. rewrite lookup_insert_eq. cbn [default].
      unfold id. rewrite <- app_assoc. reflexivity.
Qed.

(** After subscribing [fs] to [name] in order, [publish_event name data]
    spawns one call per subscriber of [name], the earlier ones first and
    these last in subscription order, each on the same [data]; it keeps the
    registry and prints nothing. *)
Theorem publish_event_spawns_subscribers (name : string) (data : list Z)
    (fs : list EventFunction) (st : BusState EventFunction) :
  fs <> [] ->
  publish_event name data (fold_left (fun s f => snd (insert_into_hashmap name f s)) fs st) =
  (tt, mkBusState (registry (fold_left (fun s f => snd (insert_into_hashmap name f s)) fs st))
         (spawned st ++ map (fun f => (f, data)) (default [] (registry st !! name) ++ fs))
         (stdout st)).
Proof.
  intros Hne. destruct (subscribe_all_state name fs st) as (H1 & H2 & H3).
  unfold publish_event, get_from_hashmap. rewrite (H3 Hne), H1, H2. reflexivity.
Qed.
End EventBusMoreFacts.

(** ** The bincode wrapper's receive errors *)
Section BincodeWrapperMoreFacts.
Import BincodeWrapper.
Context {T : Type} (serialize : T -> option (list Z))
  (deserialize : list Z -> result T Bincode.ErrorKind).

(** [blocking_receive] fails with the [BadRequest] error ["failed to fill
    whole buffer"] (std's short read) on a stream shorter than the 4 header
    bytes, and on one whose payload is shorter than its header says; then
    the wrapper is left as it was (the header is stored only once the whole
    payload is read) and the stream is drained. A complete payload that
    does not deserialize stores the header but not a contract.
    [async_receive] does the same, except that its short reads give
    tokio's ["early eof"]: apart from that message the two receives agree
    on every stream. *)
Theorem bincode_receive_errors :
  (forall (w : BincodeContractWrapper T) stream, (length stream < 4)%nat ->
     blocking_receive deserialize w stream
     = (Err (io_to_nano (mkIoError IoUnexpectedEof "failed to fill whole buffer")), w, [])) /\
  (forall (w : BincodeContractWrapper T) h s, 0 <= h < 2 ^ 32 -> (length s < Z.to_nat h)%nat ->
     blocking_receive deserialize w (Bincode.le_bytes 4 h ++ s)
     = (Err (io_to_nano (mkIoError IoUnexpectedEof "failed to fill whole buffer")), w, [])) /\
  (forall (w : BincodeContractWrapper T) h cb rest e, 0 <= h < 2 ^ 32 ->
     length cb = Z.to_nat h -> deserialize cb = Err e ->
     blocking_receive deserialize w (Bincode.le_bytes 4 h ++ cb ++ rest)
     = (Err (bincode_to_nano e), mkWrapper (header_bytes w) (contract_bytes w) (Some h) (contract w), rest)) /\
  (forall (w : BincodeContractWrapper T) stream, (length stream < 4)%nat ->
     async_receive deserialize w stream
     = (Err (io_to_nano (mkIoError IoUnexpectedEof "early eof")), w, [])) /\
  (forall (w : BincodeContractWrapper T) h s, 0 <= h < 2 ^ 32 -> (length s < Z.to_nat h)%nat ->
     async_receive deserialize w (Bincode.le_bytes 4 h ++ s)
     = (Err (io_to_nano (mkIoError IoUnexpectedEof "early eof")), w, [])) /\
  (forall (w : BincodeContractWrapper T) h cb rest e, 0 <= h < 2 ^ 32 ->
     length cb = Z.to_nat h -> deserialize cb = Err e ->
     async_receive deserialize w (Bincode.le_bytes 4 h ++ cb ++ rest)
     = (Err (bincode_to_nano e), mkWrapper (header_bytes w) (contract_bytes w) (Some h) (contract w), rest)) /\
  (forall (w : BincodeContractWrapper T) stream,
     async_receive deserialize w stream = blocking_receive deserialize w stream \/
     exists w' rest,
       blocking_receive deserialize w stream
       = (Err (io_to_nano (mkIoError IoUnexpectedEof "failed to fill whole buffer")), w', rest) /\
       async_receive deserialize w stream
       = (Err (io_to_nano (mkIoError IoUnexpectedEof "early eof")), w', rest)).
Proof.
  split; [|split; [|split; [|split; [|split; [|split]]]]].
  - intros w stream Hs. unfold blocking_receive. rewrite read_exact_short by exact Hs. reflexivity.
  - intros w h s Hh Hs. unfold blocking_receive.
    rewrite read_exact_app by (rewrite length_le_bytes; reflexivity).
    rewrite deserialize_u32_le, Z.mod_small by exact Hh.
    rewrite read_exact_short by exact Hs. reflexivity.
  - intros w h cb rest e Hh Hl Hde. unfold blocking_receive.
    rewrite read_exact_app by (rewrite length_le_bytes; reflexivity).
    rewrite deserialize_u32_le, Z.mod_small by exact Hh.
    rewrite read_exact_app by (symmetry; exact Hl). rewrite Hde. reflexivity.
  - intros w stream Hs. unfold async_receive. rewrite async_read_exact_short by exact Hs. reflexivity.
  - intros w h s Hh Hs. unfold async_receive.
    rewrite async_read_exact_app by (rewrite length_le_bytes; reflexivity).
    rewrite deserialize_u32_le, Z.mod_small by exact Hh.
    rewrite async_read_exact_short by exact Hs. reflexivity.
  - intros w h cb rest e Hh Hl Hde. unfold async_receive.
    rewrite async_read_exact_app by (rewrite length_le_bytes; reflexivity).
    rewrite deserialize_u32_le, Z.mod_small by exact Hh.
    rewrite async_read_exact_app by (symmetry; exact Hl). rewrite Hde. reflexivity.
  - intros w stream. unfold async_receive, blocking_receive.
    destruct (read_exact_cases 4 stream) as [(a & s1 & E & A) | (E & A)]; rewrite E, A;
      [|right; eexists _, _; split; reflexivity].
    destruct (Bincode.deserialize_u32 a) as [hdr|e]; [|left; reflexivity].
    destruct (read_exact_cases (Z.to_nat hdr) s1) as [(b & s2 & E2 & A2) | (E2 & A2)];
      rewrite E2, A2; [left; reflexivity | right; eexists _, _; split; reflexivity].
Qed.

(** [new] succeeds whenever bincode serializes the contract: its check
    that the header has 4 bytes never fires. The header bytes are the
    4-byte little-endian payload length modulo [2^32]; nothing has been
    received yet. *)
Theorem bincode_new_succeeds (c : T) (cb : list Z) :
  serialize c = Some cb ->
  exists w, new serialize c = Ok w /\
    header_bytes w = Some (Bincode.le_bytes 4 (Z.of_nat (length cb) mod 2 ^ 32)) /\
    contract_bytes w = Some cb /\ header w = None /\ contract w = None /\
    Bincode.le_value (Bincode.le_bytes 4 (Z.of_nat (length cb) mod 2 ^ 32))
      = Z.of_nat (length cb) mod 2 ^ 32.
Proof.
  intros H. unfold new. rewrite H. cbv zeta. unfold Bincode.serialize_u32.
  rewrite length_le_bytes. cbn [negb Nat.eqb].
  eexists. split; [reflexivity|]. cbn [header_bytes contract_bytes header contract].
  split; [reflexivity|]. split; [reflexivity|]. split; [reflexivity|]. split; [reflexivity|].
  apply le_value_u32. apply Z.mod_pos_bound. lia.
Qed.
End BincodeWrapperMoreFacts.

(** ** The bitcode wrapper's partial receives *)
Section BitcodeWrapperMoreFacts.
Import BitcodeWrapper.
Context {T : Type} (decode_contract : list Z -> result T string).
Context (decode_u32 : list Z -> result Z string) (decode_u8 : list Z -> result Z string).

(** A failed [blocking_receive] leaves what it already decoded in the
    wrapper: after a short header it has stored the pre-header but no
    header; after a short payload still no header (the header is stored
    after the payload is read); after a payload that does not decode, the
    header but no contract. The stream is drained by a short read. *)
Theorem bitcode_receive_partial_state (w : BitcodeContractWrapper T) :
  (forall b hs ph, decode_u8 [b] = Ok ph -> (length hs < Z.to_nat ph)%nat ->
     blocking_receive decode_contract decode_u32 decode_u8 w ([b] ++ hs)
     = (Err eof_error, mkWrapper (pre_header_bytes w) (header_bytes w) (contract_bytes w)
                         (Some ph) (header w) (contract w), [])) /\
  (forall b hb cs ph n, decode_u8 [b] = Ok ph -> Z.to_nat ph = length hb ->
     decode_u32 hb = Ok n -> (length cs < Z.to_nat n)%nat ->
     blocking_receive decode_contract decode_u32 decode_u8 w ([b] ++ hb ++ cs)
     = (Err eof_error, mkWrapper (pre_header_bytes w) (header_bytes w) (contract_bytes w)
                         (Some ph) (header w) (contract w), [])) /\
  (forall b hb cb rest ph n m, decode_u8 [b] = Ok ph -> Z.to_nat ph = length hb ->
     decode_u32 hb = Ok n -> Z.to_nat n = length cb -> decode_contract cb = Err m ->
     blocking_receive decode_contract decode_u32 decode_u8 w ([b] ++ hb ++ cb ++ rest)
     = (Err (decode_error m), mkWrapper (pre_header_bytes w) (header_bytes w) (contract_bytes w)
                         (Some ph) (Some n) (contract w), rest)).
Proof.
  split; [|split].
  - intros b hs ph H8 Hs. unfold blocking_receive.
    rewrite read_exact_app by reflexivity. rewrite H8.
    rewrite read_exact_short by exact Hs. reflexivity.
  - intros b hb cs ph n H8 Hph H32 Hs. unfold blocking_receive.
    rewrite read_exact_app by reflexivity. rewrite H8.
    rewrite read_exact_app by exact Hph. rewrite H32.
    rewrite read_exact_short by exact Hs. reflexivity.
  - intros b hb cb rest ph n m H8 Hph H32 Hn Hc. unfold blocking_receive.
    rewrite read_exact_app by reflexivity. rewrite H8.
    rewrite read_exact_app by exact Hph. rewrite H32.
    rewrite read_exact_app by exact Hn. rewrite Hc. reflexivity.
Qed.
End BitcodeWrapperMoreFacts.

(** ** The streaming codec on two items *)

(** [encode] appends an item's bincode bytes to the buffer. Decoding a
    buffer into which two items were encoded yields the first one and
    leaves the buffer as it was, so the next decode yields the first item
    again: [decode] never moves on to the second. *)
Theorem codec_decode_repeats_first (v1 v2 : Bincode.TestStruct) (dst : list Z) :
  0 <= Bincode.field1 v1 < 2 ^ 32 ->
  Z.of_nat (length (Bincode.field2 v1)) < 2 ^ 64 ->
  Bincode.utf8_valid (Bincode.field2 v1) = true ->
  Codec.encode v1 dst = (Ok tt, dst ++ Bincode.serialize_test_struct v1) /\
  let buf := snd (Codec.encode v2 (snd (Codec.encode v1 []))) in
  buf = Bincode.serialize_test_struct v1 ++ Bincode.serialize_test_struct v2 /\
  Codec.decode Bincode.deserialize_test_struct buf = (Ok (Some v1), buf) /\
  Codec.decode Bincode.deserialize_test_struct (snd (Codec.decode Bincode.deserialize_test_struct buf))
    = (Ok (Some v1), buf).
Proof.
  intros H1 H2 Hu. split; [reflexivity|]. cbv zeta. cbn [Codec.encode snd].
  rewrite app_nil_l. split; [reflexivity|].
  assert (Hd : Codec.decode Bincode.deserialize_test_struct
                 (Bincode.serialize_test_struct v1 ++ Bincode.serialize_test_struct v2)
               = (Ok (Some v1), Bincode.serialize_test_struct v1 ++ Bincode.serialize_test_struct v2)).
  { unfold Codec.decode. rewrite deserialize_test_struct_roundtrip by assumption. reflexivity. }
  rewrite Hd. cbn [snd]. split; [reflexivity | exact Hd].
Qed.

(** * Witnesses of the further properties *)

Lemma internal_index_positions_witness :
  Contract.internal_index Contract.test_variants (Contract.ContractVariant "ContractThree" tt) = 3.
Proof.
  assert (Hin : "ContractThree" ∈ Contract.test_variants).
  { apply elem_of_cons. right. apply elem_of_cons. right. apply elem_of_cons. left. reflexivity. }
  destruct (proj1 (internal_index_positions Contract.test_variants) "ContractThree" tt Hin)
    as (i & Hi & _ & Hv).
  rewrite Hv. destruct i as [|[|[|i]]]; cbn in Hi; try discriminate Hi; [reflexivity|].
  destruct i; discriminate Hi.
Defined.

Lemma from_contract_bytes_first_match_witness :
  Contract.from_contract_bytes ["ContractOne"; "contractone"] (fun n (b : list Z) =>
      if String.eqb n "ContractOne" then None else Some n) [] "contractone_contract"
  = Ok (Contract.ContractVariant "contractone" "contractone").
Proof.
  apply (proj2 (proj1 (from_contract_bytes_first_match ["ContractOne"; "contractone"]
           (fun n (b : list Z) => if String.eqb n "ContractOne" then None else Some n)
           [] "contractone_contract") _)).
  exists ["ContractOne"], "contractone", [], "contractone".
  split; [reflexivity|]. split; [reflexivity|]. split; [reflexivity|]. split; [reflexivity|].
  constructor; [intros _; reflexivity | constructor].
Defined.

Lemma publish_event_spawns_subscribers_witness :
  EventBus.spawned (snd (EventBus.publish_event "orders" [1; 2]
    (fold_left (fun s f => snd (EventBus.insert_into_hashmap "orders" f s)) [7%nat; 8%nat]
       (EventBus.mkBusState ∅ [] []))))
  = [(7%nat, [1; 2]); (8%nat, [1; 2])].
Proof.
  rewrite (publish_event_spawns_subscribers "orders" [1; 2] [7%nat; 8%nat]
             (EventBus.mkBusState ∅ [] [])) by discriminate.
  reflexivity.
Defined.

Lemma bincode_receive_errors_witness :
  BincodeWrapper.blocking_receive bool_deserialize BincodeWrapper.empty
    (Bincode.le_bytes 4 3 ++ [1])
  = (Err (BincodeWrapper.io_to_nano (mkIoError IoUnexpectedEof "failed to fill whole buffer")),
     BincodeWrapper.empty, []) /\
  BincodeWrapper.async_receive bool_deserialize BincodeWrapper.empty
    (Bincode.le_bytes 4 3 ++ [1])
  = (Err (BincodeWrapper.io_to_nano (mkIoError IoUnexpectedEof "early eof")),
     BincodeWrapper.empty, []).
Proof.
  destruct (@bincode_receive_errors bool bool_deserialize) as (_ & H2 & _ & _ & H5 & _).
  split; [apply H2; [lia | cbn; lia] | apply H5; [lia | cbn; lia]].
Defined.

Lemma bincode_new_succeeds_witness :
  exists w, BincodeWrapper.new bool_serialize true = Ok w /\
    BincodeWrapper.header_bytes w = Some (Bincode.le_bytes 4 (Z.of_nat (length [1]) mod 2 ^ 32)) /\
    BincodeWrapper.contract_bytes w = Some [1] /\ BincodeWrapper.header w = None /\
    BincodeWrapper.contract w = None /\
    Bincode.le_value (Bincode.le_bytes 4 (Z.of_nat (length [1]) mod 2 ^ 32))
      = Z.of_nat (length [1]) mod 2 ^ 32.
Proof. apply (bincode_new_succeeds bool_serialize true [1]). reflexivity. Defined.

Lemma bincode_frames_in_order_below_limit_witness :
  exists w1 w2 s1 s2 r1 r2 s3,
    BincodeWrapper.new bool_serialize true = Ok w1 /\
    BincodeWrapper.new bool_serialize false = Ok w2 /\
    BincodeWrapper.blocking_send w1 [] = Returned (Ok tt, s1) /\
    BincodeWrapper.blocking_send w2 s1 = Returned (Ok tt, s2) /\
    BincodeWrapper.blocking_receive bool_deserialize BincodeWrapper.empty s2 = (Ok tt, r1, s3) /\
    BincodeWrapper.contract r1 = Some true /\
    BincodeWrapper.blocking_receive bool_deserialize BincodeWrapper.empty s3 = (Ok tt, r2, []) /\
    BincodeWrapper.contract r2 = Some false.
Proof.
  apply (bincode_frames_in_order_below_limit bool_serialize bool_deserialize true false [1] [0]).
  - intros [] b H; injection H as <-; reflexivity.
  - reflexivity.
  - reflexivity.
  - cbn. lia.
  - cbn. lia.
Defined.

Lemma bitcode_receive_partial_state_witness :
  BitcodeWrapper.blocking_receive bool_decode u32_decode u8_decode BitcodeWrapper.empty
    ([4] ++ [2; 0; 0; 0] ++ [1])
  = (Err BitcodeWrapper.eof_error,
     BitcodeWrapper.mkWrapper None None None (Some 4) None None, []).
Proof.
  apply (proj1 (proj2 (bitcode_receive_partial_state bool_decode u32_decode u8_decode
                         BitcodeWrapper.empty)) 4 [2; 0; 0; 0] [1] 4 2);
    [reflexivity | reflexivity | reflexivity | cbn; lia].
Defined.

Lemma codec_decode_repeats_first_witness :
  Codec.decode Bincode.deserialize_test_struct
    (snd (Codec.encode (Bincode.mkTestStruct 2 [111; 107])
       (snd (Codec.encode (Bincode.mkTestStruct 1 [104; 105]) []))))
  = (Ok (Some (Bincode.mkTestStruct 1 [104; 105])),
     snd (Codec.encode (Bincode.mkTestStruct 2 [111; 107])
       (snd (Codec.encode (Bincode.mkTestStruct 1 [104; 105]) [])))).
Proof.
  destruct (codec_decode_repeats_first (Bincode.mkTestStruct 1 [104; 105])
              (Bincode.mkTestStruct 2 [111; 107]) [])
    as (_ & _ & Hd & _); [cbn; lia | cbn; lia | reflexivity | exact Hd].
Defined.

Lemma host_call_balanced_witness :
  exists g' l,
    GuestBridge.host_call ["ContractTwo"] (fun _ _ => Some [1; 2; 3]) (fun _ _ => Some tt)
      (fun _ => Some []) (fun _ => Some (fun x => Some (x ++ [9])))
      (Contract.ContractVariant "ContractTwo" tt) GuestBridge.fresh_guest
    = Some (Contract.ContractVariant "ContractTwo" tt, g') /\
    length l = 3%nat /\ GuestBridge.allocs g' = GuestBridge.allocs GuestBridge.fresh_guest ++ l /\
    GuestBridge.frees g' = GuestBridge.frees GuestBridge.fresh_guest ++ l.
Proof.
  apply (host_call_balanced ["ContractTwo"] (fun _ _ => Some [1; 2; 3]) (fun _ _ => Some tt)
           (fun _ => Some []) (fun _ => Some (fun x => Some (x ++ [9])))
           (Contract.ContractVariant "ContractTwo" tt) (Contract.ContractVariant "ContractTwo" tt)
           GuestBridge.fresh_guest [1; 2; 3] [1; 2; 3; 9] (fun x => Some (x ++ [9])));
    [reflexivity | reflexivity | reflexivity | discriminate | vm_compute; reflexivity
    | cbn; lia | cbn; lia].
Defined.
